(** * scratch.ts: the input algebra, the frame scheduler and the scene stack

    A shallow embedding of [scratch.ts] and the properties its design
    document states about it.

    Objects.  Every field that refers to another object ([AndButton.left],
    [NotButton.inner], [Key.keyboard], [Key.key], ...) is private and
    assigned once, in the constructor.  An object is therefore modelled as an
    immutable handle that carries its identity (an address) and those
    fields, while each mutable field ([Button.wasDown], [Key.state],
    [Keyboard.states], [Keyboard.keys]) is a map from identities to the
    field's current value.  Two handles denote the same object exactly when
    they carry the same address, so sharing a Button between composites is
    sharing its address.

    Numbers.  A JavaScript [number] is an IEEE 754 binary64 value: the
    kernel's primitive [float]. *)

From Stdlib Require Import Floats.
From stdpp Require Import base functions gmap strings list.

Set Warnings "-inexact-float".

Section Scratch.

(** ** Values *)

Definition number := float.

(** The identity of an object. *)
Definition loc := nat.

(** [class Key extends Button]: the fields set by its constructor. *)
Record Key := {
  Key_self : loc;
  Key_keyboard : loc;
  Key_key : string
}.

(** [abstract class Button] and its four concrete classes. *)
Inductive Button : Type :=
| OfKey (k : Key)
| AndButton (self : loc) (left right : Button)
| OrButton (self : loc) (left right : Button)
| NotButton (self : loc) (inner : Button).

Definition Button_self (b : Button) : loc :=
  match b with
  | OfKey k => Key_self k
  | AndButton self _ _ | OrButton self _ _ | NotButton self _ => self
  end.

Definition is_composite (b : Button) : bool :=
  match b with OfKey _ => false | _ => true end.

(** ** The heap of Button and Keyboard objects *)

Record Heap := {
  (** every Button constructed so far; its address is its index *)
  buttons : list Button;
  (** [Button.wasDown] *)
  wasDown : loc -> bool;
  (** [Key.state] *)
  state : loc -> bool;
  (** how many Keyboards were constructed; their addresses are [0 .. keyboards-1] *)
  keyboards : nat;
  (** [Keyboard.states]: the raw map, written by the platform's key events *)
  states : loc -> gmap string bool;
  (** [Keyboard.keys] *)
  keys : loc -> list Key
}.

Definition empty_heap : Heap :=
  {| buttons := []; wasDown := fun _ => false; state := fun _ => false;
     keyboards := 0; states := fun _ => ∅; keys := fun _ => [] |}.

Definition set_buttons (v : list Button) (h : Heap) : Heap :=
  {| buttons := v; wasDown := wasDown h; state := state h;
     keyboards := keyboards h; states := states h; keys := keys h |}.

Definition set_wasDown (v : loc -> bool) (h : Heap) : Heap :=
  {| buttons := buttons h; wasDown := v; state := state h;
     keyboards := keyboards h; states := states h; keys := keys h |}.

Definition set_state (v : loc -> bool) (h : Heap) : Heap :=
  {| buttons := buttons h; wasDown := wasDown h; state := v;
     keyboards := keyboards h; states := states h; keys := keys h |}.

Definition set_keyboards (v : nat) (h : Heap) : Heap :=
  {| buttons := buttons h; wasDown := wasDown h; state := state h;
     keyboards := v; states := states h; keys := keys h |}.

Definition set_states (v : loc -> gmap string bool) (h : Heap) : Heap :=
  {| buttons := buttons h; wasDown := wasDown h; state := state h;
     keyboards := keyboards h; states := v; keys := keys h |}.

Definition set_keys (v : loc -> list Key) (h : Heap) : Heap :=
  {| buttons := buttons h; wasDown := wasDown h; state := state h;
     keyboards := keyboards h; states := states h; keys := v |}.

(** ** Button *)

(** [Button]'s constructor: [this.wasDown = false], run by every subclass
    constructor through [super()].  The new object takes the next address. *)
Definition Button_constructor (this : Button) (h : Heap) : Heap :=
  set_wasDown (<[Button_self this := false]> (wasDown h))
    (set_buttons (buttons h ++ [this]) h).

(** [isDown()], dispatched on the class:
    - [Key]: [return this.state]
    - [AndButton]: [return this.left.isDown() && this.right.isDown()]
    - [OrButton]: [return this.left.isDown() || this.right.isDown()]
    - [NotButton]: [return !this.inner.isDown()] *)
Fixpoint isDown (h : Heap) (b : Button) : bool :=
  match b with
  | OfKey k => state h (Key_self k)
  | AndButton _ l r => isDown h l && isDown h r
  | OrButton _ l r => isDown h l || isDown h r
  | NotButton _ inner => negb (isDown h inner)
  end.

(** [isUp() { return !this.isDown(); }] *)
Definition isUp (h : Heap) (b : Button) : bool := negb (isDown h b).

(** [pressed() { return this.isDown() && !this.wasDown; }] *)
Definition pressed (h : Heap) (b : Button) : bool :=
  isDown h b && negb (wasDown h (Button_self b)).

(** [release() { return !this.isDown() && this.wasDown; }] *)
Definition release (h : Heap) (b : Button) : bool :=
  negb (isDown h b) && wasDown h (Button_self b).

(** [Button.update(dt) { this.wasDown = this.isDown(); }] *)
Definition Button_update (dt : number) (this : Button) (h : Heap) : Heap :=
  set_wasDown (<[Button_self this := isDown h this]> (wasDown h)) h.

(** [this.keyboard.states[this.key] === true]: strict equality with [true],
    so a name the raw map does not hold gives [false], whether the lookup
    is [undefined] or finds a property every object inherits. *)
Definition sample (raw : gmap string bool) (key : string) : bool :=
  bool_decide (raw !! key = Some true).

(** [Key.update(dt) { super.update(dt);
                      this.state = (this.keyboard.states[this.key] === true); }] *)
Definition Key_update (dt : number) (this : Key) (h : Heap) : Heap :=
  let h1 := Button_update dt (OfKey this) h in
  set_state
    (<[Key_self this := sample (states h1 (Key_keyboard this)) (Key_key this)]>
       (state h1))
    h1.

(** [b.update(dt)]: [Key] overrides [update], the composites inherit
    [Button.update]. *)
Definition update (dt : number) (b : Button) (h : Heap) : Heap :=
  match b with
  | OfKey k => Key_update dt k h
  | _ => Button_update dt b h
  end.

(** The constructors of the concrete classes. *)
Definition new_Key (keyboard : loc) (key : string) (h : Heap) : Key * Heap :=
  let this := {| Key_self := length (buttons h);
                 Key_keyboard := keyboard; Key_key := key |} in
  let h1 := Button_constructor (OfKey this) h in
  (this, set_state (<[Key_self this := false]> (state h1)) h1).

Definition new_AndButton (left right : Button) (h : Heap) : Button * Heap :=
  let this := AndButton (length (buttons h)) left right in
  (this, Button_constructor this h).

Definition new_OrButton (left right : Button) (h : Heap) : Button * Heap :=
  let this := OrButton (length (buttons h)) left right in
  (this, Button_constructor this h).

Definition new_NotButton (inner : Button) (h : Heap) : Button * Heap :=
  let this := NotButton (length (buttons h)) inner in
  (this, Button_constructor this h).

(** [id()].  [NotButton.id] calls [this.id()], the method that is running,
    so the recursion is not on the structure of the Button: [fuel] bounds
    the depth of the calls, and [None] says that no string was returned
    within that depth.

    [AndButton.id] and [OrButton.id] interpolate [this.right.id] without
    calling it, which prints the text of the method; [method_text] gives
    that text for the class of a Button. *)
Variable method_text : Button -> string.

Fixpoint Button_id (fuel : nat) (b : Button) : option string :=
  match fuel with
  | 0 => None
  | S fuel =>
      match b with
      | OfKey k => Some ("Keyboard." +:+ Key_key k)
      | AndButton _ l r =>
          s ← Button_id fuel l;
          Some ("(" +:+ s +:+ ")&(" +:+ method_text r +:+ ")")
      | OrButton _ l r =>
          s ← Button_id fuel l;
          Some ("(" +:+ s +:+ ")|(" +:+ method_text r +:+ ")")
      | NotButton _ _ =>
          s ← Button_id fuel b;
          Some ("!" +:+ s)
      end
  end.

(** ** Keyboard *)

(** [constructor(canvas) { this.states = { }; this.keys = [ ]; ... }] *)
Definition new_Keyboard (h : Heap) : loc * Heap :=
  let this := keyboards h in
  (this,
   set_keyboards (S this)
     (set_keys (<[this := []]> (keys h))
        (set_states (<[this := ∅]> (states h)) h))).

(** The two handlers the constructor installs on the canvas:
    [(e) => this.states[e.key] = true] and [(e) => delete this.states[e.key]].
    [states] is a plain object, so an assignment to its ["__proto__"] calls
    the setter it inherits, which ignores a boolean: that one name is never
    inserted. *)
Definition onkeydown (this : loc) (key : string) (h : Heap) : Heap :=
  if decide (key = "__proto__") then h
  else set_states (<[this := <[key := true]> (states h this)]> (states h)) h.

Definition onkeyup (this : loc) (key : string) (h : Heap) : Heap :=
  set_states (<[this := delete key (states h this)]> (states h)) h.

(** [key(key) { let result = new Key(this, key); this.keys.push(result);
                return result; }] *)
Definition Keyboard_key (this : loc) (key : string) (h : Heap) : Button * Heap :=
  let '(result, h1) := new_Key this key h in
  (OfKey result, set_keys (<[this := keys h1 this ++ [result]]> (keys h1)) h1).

(** [update(dt) { this.keys.forEach((key) => key.update(dt)); }] *)
Definition Keyboard_update (dt : number) (this : loc) (h : Heap) : Heap :=
  foldl (fun h key => Key_update dt key h) h (keys h this).

(** ** What a program can do to the heap *)

(** The platform's key notifications. *)
Inductive RawEvent :=
| KeyDown (keyboard : loc) (key : string)
| KeyUp (keyboard : loc) (key : string).

Definition deliver (e : RawEvent) (h : Heap) : Heap :=
  match e with
  | KeyDown keyboard key => onkeydown keyboard key h
  | KeyUp keyboard key => onkeyup keyboard key h
  end.

(** Every operation of the input classes that writes the heap. *)
Inductive Action :=
| Raw (e : RawEvent)
| Update (dt : number) (b : Button)
| UpdateKeyboard (dt : number) (keyboard : loc)
| NewKeyboard
| GetKey (keyboard : loc) (key : string)
| NewKey (keyboard : loc) (key : string)
| NewAnd (l r : Button)
| NewOr (l r : Button)
| NewNot (inner : Button).

Definition perform (a : Action) (h : Heap) : Heap :=
  match a with
  | Raw e => deliver e h
  | Update dt b => update dt b h
  | UpdateKeyboard dt keyboard => Keyboard_update dt keyboard h
  | NewKeyboard => snd (new_Keyboard h)
  | GetKey keyboard key => snd (Keyboard_key keyboard key h)
  | NewKey keyboard key => snd (new_Key keyboard key h)
  | NewAnd l r => snd (new_AndButton l r h)
  | NewOr l r => snd (new_OrButton l r h)
  | NewNot inner => snd (new_NotButton inner h)
  end.

Definition run (acts : list Action) (h : Heap) : Heap :=
  foldl (fun h a => perform a h) h acts.

(** The heaps a program can produce: every heap that any sequence of
    actions builds from the empty one.  (An action may even name a Button
    or a Keyboard that was never constructed, which no program can.) *)
Inductive reachable : Heap -> Prop :=
| reachable_empty : reachable empty_heap
| reachable_perform h a : reachable h -> reachable (perform a h).

(** [b] is an object of the heap: it was constructed, at its address. *)
Definition live (h : Heap) (b : Button) : Prop :=
  buttons h !! Button_self b = Some b.

(** Does [a], performed in [h], call [update] on the object [b]? *)
Definition updates (h : Heap) (b : Button) (a : Action) : bool :=
  match a with
  | Update _ b' => bool_decide (Button_self b' = Button_self b)
  | UpdateKeyboard _ keyboard =>
      bool_decide (Button_self b ∈ Key_self <$> keys h keyboard)
  | _ => false
  end.

(** No action of [acts], performed from [h] on, calls [update] on [b]. *)
Fixpoint quiet (b : Button) (acts : list Action) (h : Heap) : bool :=
  match acts with
  | [] => true
  | a :: acts => negb (updates h b a) && quiet b acts (perform a h)
  end.

(** Every Key a Keyboard has registered is an object of the heap. *)
Definition keys_live (h : Heap) : Prop :=
  forall keyboard k, k ∈ keys h keyboard -> live h (OfKey k).

(** Two Keys in the states [x] and [y]: two Keys of one Keyboard, the raw
    events that hold the chosen ones down, and the Keyboard's update. *)
Definition two_keys (x y : bool) : Heap :=
  run ([NewKeyboard; GetKey 0 "a"; GetKey 0 "b"]
         ++ (if x then [Raw (KeyDown 0 "a")] else [])
         ++ (if y then [Raw (KeyDown 0 "b")] else [])
         ++ [UpdateKeyboard 0%float 0])
      empty_heap.

(** ** Further notions *)

(** The Keys a Button reads, through any depth of composites. *)
Fixpoint leaves (b : Button) : list Key :=
  match b with
  | OfKey k => [k]
  | AndButton _ l r | OrButton _ l r => leaves l ++ leaves r
  | NotButton _ inner => leaves inner
  end.

(** [id()] descends into [this.left] only: does it stay clear of every
    NotButton on that way, and how deep do its calls go? *)
Fixpoint id_returns (b : Button) : bool :=
  match b with
  | OfKey _ => true
  | AndButton _ l _ | OrButton _ l _ => id_returns l
  | NotButton _ _ => false
  end.

Fixpoint id_depth (b : Button) : nat :=
  match b with
  | OfKey _ => 1
  | AndButton _ l _ | OrButton _ l _ => S (id_depth l)
  | NotButton _ _ => 0
  end.

(** What [Keyboard.keys] holds: no Key twice, and only Keys of the heap
    that are bound to this Keyboard. *)
Definition keys_wf (h : Heap) : Prop :=
  forall keyboard,
    NoDup (Key_self <$> keys h keyboard)
    /\ forall k, k ∈ keys h keyboard ->
         Key_keyboard k = keyboard /\ live h (OfKey k).

(** Raw events, delivered one after the other. *)
Definition delivered (evs : list RawEvent) (h : Heap) : Heap :=
  foldl (fun h e => deliver e h) h evs.

(** Is [e] an event of this Keyboard that writes this name? *)
Definition writes (e : RawEvent) (keyboard : loc) (key : string) : bool :=
  match e with
  | KeyDown keyboard' key' =>
      bool_decide (keyboard' = keyboard /\ key' = key /\ key ≠ "__proto__")
  | KeyUp keyboard' key' => bool_decide (keyboard' = keyboard /\ key' = key)
  end.

(** Whether a name is held after [evs], when [held] says whether it was
    before: the last event that writes the name decides. *)
Definition held_after (evs : list RawEvent) (keyboard : loc) (key : string)
    (held : bool) : bool :=
  foldl (fun held e =>
           if writes e keyboard key
           then match e with KeyDown _ _ => true | KeyUp _ _ => false end
           else held)
        held evs.

(** ** KernelScheduler *)

Record KernelScheduler := {
  targetFPS : number;
  lastTick : number;
  executing : bool
}.

(** What the scheduler calls: its [callback], and
    [window.requestAnimationFrame((t) => this.tick(t))]. *)
Inductive SchedulerCall :=
| Call_callback (dt : number)
| Call_requestAnimationFrame.

(** [constructor(callback, targetFPS)] *)
Definition new_KernelScheduler (targetFPS : number) : KernelScheduler :=
  {| targetFPS := targetFPS; lastTick := 0%float; executing := false |}.

Definition KernelScheduler_scheduleTick : list SchedulerCall :=
  [Call_requestAnimationFrame].

(** [start() { if (!this.executing) { this.executing = true;
                                       this.scheduleTick(); } }] *)
Definition KernelScheduler_start (this : KernelScheduler)
  : KernelScheduler * list SchedulerCall :=
  if negb (executing this)
  then ({| targetFPS := targetFPS this; lastTick := lastTick this;
           executing := true |},
        KernelScheduler_scheduleTick)
  else (this, []).

(** [stop() { this.executing = false; this.lastTick = 0; }] *)
Definition KernelScheduler_stop (this : KernelScheduler) : KernelScheduler :=
  {| targetFPS := targetFPS this; lastTick := 0%float; executing := false |}.

(** [tick(timeMS)]: [a > b] on numbers is [b <? a] on floats.  The callback
    of the only scheduler the program builds is [Kernel.tick], which has no
    access to the scheduler's fields. *)
Definition KernelScheduler_tick (timeMS : number) (this : KernelScheduler)
  : KernelScheduler * list SchedulerCall :=
  if executing this then
    let time := (timeMS / 1000)%float in
    let '(this1, calls) :=
      if (1 / targetFPS this <? time - lastTick this)%float
      then ({| targetFPS := targetFPS this; lastTick := time;
               executing := executing this |},
            [Call_callback (time - lastTick this)%float])
      else (this, [])
    in
    (this1, calls ++ KernelScheduler_scheduleTick)
  else (this, []).

(** The frame notifications the platform delivers, one after the other. *)
Definition KernelScheduler_ticks (times : list number) (this : KernelScheduler)
  : KernelScheduler * list SchedulerCall :=
  foldl (fun '(s, calls) timeMS =>
           let '(s1, calls1) := KernelScheduler_tick timeMS s in
           (s1, calls ++ calls1))
        (this, []) times.

(** The arguments of the callback's invocations among [calls]. *)
Definition callbacks (calls : list SchedulerCall) : list number :=
  omap (fun c => match c with
                 | Call_callback dt => Some dt
                 | Call_requestAnimationFrame => None
                 end) calls.

(** How many frame requests there are among [calls]. *)
Definition requests (calls : list SchedulerCall) : nat :=
  length (omap (fun c => match c with
                         | Call_requestAnimationFrame => Some tt
                         | Call_callback _ => None
                         end) calls).

(** ** Kernel *)

(** Game code supplies the Scenes and the platform supplies the canvas:
    - [Scene]: the identities of the Scene objects;
    - [Game]: everything the Scenes own (their private variables);
    - [Canvas]: the canvas element with its contents. *)
Variables Scene Game Canvas : Type.

Record Kernel := {
  canvas : Canvas;
  scheduler : KernelScheduler;
  input : gmap string Button;
  keyboardDevice : loc;
  scenes : list Scene
}.

Record World := {
  heap : Heap;
  kernel : Kernel;
  game : Game
}.

(** [constructor(canvas)]: a scheduler at 60 frames per second, an empty
    input registry, a new Keyboard and an empty stack. *)
Definition new_Kernel (canvas : Canvas) (h : Heap) : Kernel * Heap :=
  let '(keyboard, h1) := new_Keyboard h in
  ({| canvas := canvas; scheduler := new_KernelScheduler 60%float;
      input := ∅; keyboardDevice := keyboard; scenes := [] |},
   h1).

Definition set_scenes (v : list Scene) (k : Kernel) : Kernel :=
  {| canvas := canvas k; scheduler := scheduler k; input := input k;
     keyboardDevice := keyboardDevice k; scenes := v |}.

Definition set_canvas (v : Canvas) (k : Kernel) : Kernel :=
  {| canvas := v; scheduler := scheduler k; input := input k;
     keyboardDevice := keyboardDevice k; scenes := scenes k |}.

Definition set_scheduler (v : KernelScheduler) (k : Kernel) : Kernel :=
  {| canvas := canvas k; scheduler := v; input := input k;
     keyboardDevice := keyboardDevice k; scenes := scenes k |}.

Definition on_heap (f : Heap -> Heap) (w : World) : World :=
  {| heap := f (heap w); kernel := kernel w; game := game w |}.

Definition on_kernel (f : Kernel -> Kernel) (w : World) : World :=
  {| heap := heap w; kernel := f (kernel w); game := game w |}.

(** The [Scene] interface, as implemented by game code: a Scene's methods
    may change anything they can reach, the Kernel's stack included. *)
Variable Scene_update : Scene -> number -> World -> World.
Variable Scene_render : Scene -> number -> World -> World.

(** [c.canvas.width], [c.canvas.height] and [c.clearRect(x, y, w, h)] for
    the canvas's 2D context [c]. *)
Variables canvas_width canvas_height : Canvas -> number.
Variable clearRect : number -> number -> number -> number -> Canvas -> Canvas.

(** The calls a Kernel method makes on its collaborators, in order. *)
Inductive Call :=
| Call_Keyboard_update (keyboard : loc) (dt : number)
| Call_Scene_update (scene : Scene) (dt : number)
| Call_clearRect (x y w h : number)
| Call_Scene_render (scene : Scene) (dt : number)
| Call_focus
| Call_scheduler (c : SchedulerCall).

(** A Kernel method: it reads and writes the world, and makes calls. *)
Definition M (A : Type) : Type := World -> A * World * list Call.

#[global] Instance M_ret : MRet M := fun A a w => (a, w, []).

#[global] Instance M_bind : MBind M := fun A B f m w =>
  let '(a, w1, calls1) := m w in
  let '(b, w2, calls2) := f a w1 in
  (b, w2, calls1 ++ calls2).

Definition gets {A : Type} (f : World -> A) : M A := fun w => (f w, w, []).

Definition modify (f : World -> World) : M unit := fun w => (tt, f w, []).

(** A call: [body] is what the callee does to the world. *)
Definition call (c : Call) (body : World -> World) : M unit :=
  fun w => (tt, body w, [c]).

(** [scene()]: the last element of [this.scenes], [null] when it is empty. *)
Definition Kernel_scene : M (option Scene) :=
  gets (fun w => last (scenes (kernel w))).

(** [push(scene) { this.scenes.push(scene); }] *)
Definition Kernel_push (scene : Scene) : M unit :=
  modify (on_kernel (fun k => set_scenes (scenes k ++ [scene]) k)).

(** [pop() { this.scenes.pop(); }]: [Array.prototype.pop] removes the last
    element, and does nothing to an empty array. *)
Definition Kernel_pop : M unit :=
  modify (on_kernel (fun k => set_scenes (removelast (scenes k)) k)).

(** [swap(scene) { this.scenes.pop(); this.scenes.push(scene); }] *)
Definition Kernel_swap (scene : Scene) : M unit :=
  modify (on_kernel (fun k => set_scenes (removelast (scenes k)) k));;
  modify (on_kernel (fun k => set_scenes (scenes k ++ [scene]) k)).

(** [tick(dt)] *)
Definition Kernel_tick (dt : number) : M unit :=
  (* Poll for new input *)
  keyboard ← gets (fun w => keyboardDevice (kernel w));
  call (Call_Keyboard_update keyboard dt)
       (on_heap (Keyboard_update dt keyboard));;
  (* Update the active scene *)
  scene ← Kernel_scene;
  match scene with
  | Some scene => call (Call_Scene_update scene dt) (Scene_update scene dt)
  | None => mret tt
  end;;
  (* Clear the existing contents of the canvas *)
  c ← gets (fun w => canvas (kernel w));
  call (Call_clearRect 0%float 0%float (canvas_width c) (canvas_height c))
       (on_kernel (fun k =>
          set_canvas (clearRect 0%float 0%float
                                (canvas_width c) (canvas_height c)
                                (canvas k)) k));;
  (* Render the scene *)
  match scene with
  | Some scene => call (Call_Scene_render scene dt) (Scene_render scene dt)
  | None => mret tt
  end.

(** [this.scheduler.start()], as a Kernel method sees it. *)
Definition scheduler_start : M unit := fun w =>
  let '(s, calls) := KernelScheduler_start (scheduler (kernel w)) in
  (tt, on_kernel (set_scheduler s) w, Call_scheduler <$> calls).

(** [exec(scene) { this.scenes.push(scene); this.canvas.focus();
                   this.scheduler.start(); }] *)
Definition Kernel_exec (scene : Scene) : M unit :=
  modify (on_kernel (fun k => set_scenes (scenes k ++ [scene]) k));;
  call Call_focus (fun w => w);;
  scheduler_start.

(** ** The scheduler with [Kernel.tick] as its callback *)

Definition set_lastTick (v : number) (s : KernelScheduler) : KernelScheduler :=
  {| targetFPS := targetFPS s; lastTick := v; executing := executing s |}.

(** [KernelScheduler.tick(timeMS)] for the scheduler the Kernel's
    constructor builds, [new KernelScheduler((dt) => this.tick(dt), 60)]:
    every field is read before the callback runs, and [lastTick] is written
    after it returns. *)
Definition Kernel_frame (timeMS : number) : M unit :=
  s ← gets (fun w => scheduler (kernel w));
  if executing s then
    let time := (timeMS / 1000)%float in
    (if (1 / targetFPS s <? time - lastTick s)%float
     then Kernel_tick (time - lastTick s)%float;;
          modify (on_kernel (fun k =>
            set_scheduler (set_lastTick time (scheduler k)) k))
     else mret tt);;
    call (Call_scheduler Call_requestAnimationFrame) (fun w => w)
  else mret tt.

(** The world a Kernel method leaves, and the calls it made. *)
Definition world_after {A : Type} (m : M A) (w : World) : World := snd (fst (m w)).
Definition calls_of {A : Type} (m : M A) (w : World) : list Call := snd (m w).
Definition active (w : World) : option Scene := fst (fst (Kernel_scene w)).

(** What [tick] does to the canvas: [clearRect] over its full extent. *)
Definition clear_canvas (w : World) : World :=
  let c := canvas (kernel w) in
  on_kernel (fun k =>
    set_canvas (clearRect 0%float 0%float (canvas_width c) (canvas_height c)
                          (canvas k)) k) w.

(** * Properties *)

(** ** Which fields each operation writes *)

Lemma isDown_ext (h h' : Heap) (b : Button) :
  (forall l, state h l = state h' l) -> isDown h b = isDown h' b.
Proof.
  intros Hst.
  induction b as [k|self l IHl r IHr|self l IHl r IHr|self inner IH]; simpl.
  - apply Hst.
  - by rewrite IHl, IHr.
  - by rewrite IHl, IHr.
  - by rewrite IH.
Qed.

Lemma isDown_Button_update (dt : number) (this b : Button) (h : Heap) :
  isDown (Button_update dt this h) b = isDown h b.
Proof. by apply isDown_ext. Qed.

Lemma isDown_Button_constructor (this b : Button) (h : Heap) :
  isDown (Button_constructor this h) b = isDown h b.
Proof. by apply isDown_ext. Qed.

(** A raw event writes [Keyboard.states] and nothing else. *)
Lemma deliver_rest (e : RawEvent) (h : Heap) :
  buttons (deliver e h) = buttons h /\ wasDown (deliver e h) = wasDown h
  /\ state (deliver e h) = state h /\ keyboards (deliver e h) = keyboards h
  /\ keys (deliver e h) = keys h.
Proof.
  destruct e as [keyboard key|keyboard key]; cbn [deliver]; [|done].
  unfold onkeydown. by case_decide.
Qed.

Lemma isDown_deliver (e : RawEvent) (h : Heap) (b : Button) :
  isDown (deliver e h) b = isDown h b.
Proof.
  apply isDown_ext. intros l.
  by destruct (deliver_rest e h) as (_ & _ & -> & _).
Qed.

Lemma wasDown_deliver (e : RawEvent) (h : Heap) (l : loc) :
  wasDown (deliver e h) l = wasDown h l.
Proof. by destruct (deliver_rest e h) as (_ & -> & _). Qed.

Lemma isDown_delivered (evs : list RawEvent) (h : Heap) (b : Button) :
  isDown (foldl (fun h e => deliver e h) h evs) b = isDown h b.
Proof.
  revert h. induction evs as [|e evs IH]; intros h; simpl; [done|].
  by rewrite IH, isDown_deliver.
Qed.

Lemma wasDown_delivered (evs : list RawEvent) (h : Heap) (l : loc) :
  wasDown (foldl (fun h e => deliver e h) h evs) l = wasDown h l.
Proof.
  revert h. induction evs as [|e evs IH]; intros h; simpl; [done|].
  by rewrite IH, wasDown_deliver.
Qed.

Lemma Key_update_wasDown_eq (dt : number) (k : Key) (h : Heap) :
  wasDown (Key_update dt k h) (Key_self k) = state h (Key_self k).
Proof. simpl. apply fn_lookup_insert. Qed.

Lemma Key_update_wasDown_ne (dt : number) (k : Key) (h : Heap) (l : loc) :
  l ≠ Key_self k -> wasDown (Key_update dt k h) l = wasDown h l.
Proof. intros Hne. simpl. by apply fn_lookup_insert_ne. Qed.

Lemma Key_update_state_eq (dt : number) (k : Key) (h : Heap) :
  state (Key_update dt k h) (Key_self k)
  = sample (states h (Key_keyboard k)) (Key_key k).
Proof. simpl. apply fn_lookup_insert. Qed.

Lemma Key_update_state_ne (dt : number) (k : Key) (h : Heap) (l : loc) :
  l ≠ Key_self k -> state (Key_update dt k h) l = state h l.
Proof. intros Hne. simpl. by apply fn_lookup_insert_ne. Qed.

(** [forEach] over a Keyboard's Keys writes [wasDown] and [state] of those
    Keys, and nothing else. *)
Lemma forEach_Key_update_frame (dt : number) (ks : list Key) (h : Heap) (l : loc) :
  l ∉ Key_self <$> ks ->
  wasDown (foldl (fun h key => Key_update dt key h) h ks) l = wasDown h l
  /\ state (foldl (fun h key => Key_update dt key h) h ks) l = state h l.
Proof.
  revert h. induction ks as [|k ks IH]; intros h Hl; simpl; [done|].
  rewrite fmap_cons in Hl. apply not_elem_of_cons in Hl as [Hne Hl].
  destruct (IH (Key_update dt k h) Hl) as [-> ->].
  by rewrite Key_update_wasDown_ne, Key_update_state_ne.
Qed.

Lemma forEach_Key_update_rest (dt : number) (ks : list Key) (h : Heap) :
  let h' := foldl (fun h key => Key_update dt key h) h ks in
  buttons h' = buttons h /\ keyboards h' = keyboards h
  /\ states h' = states h /\ keys h' = keys h.
Proof.
  revert h. induction ks as [|k ks IH]; intros h; simpl; [done|].
  by destruct (IH (Key_update dt k h)) as (-> & -> & -> & ->).
Qed.

Lemma buttons_perform (a : Action) (h : Heap) :
  exists new, buttons (perform a h) = buttons h ++ new.
Proof.
  destruct a as [e|dt b|dt kb| |kb key|kb key|l r|l r|inner]; cbn [perform];
    try (by eexists [_]).
  - exists []. rewrite app_nil_r. by destruct (deliver_rest e h) as [-> _].
  - exists []. rewrite app_nil_r. by destruct b.
  - exists []. rewrite app_nil_r. unfold Keyboard_update.
    by destruct (forEach_Key_update_rest dt (keys h kb) h) as [-> _].
  - exists []. by rewrite app_nil_r.
Qed.

Lemma live_perform (a : Action) (h : Heap) (b : Button) :
  live h b -> live (perform a h) b.
Proof.
  unfold live. intros Hb. destruct (buttons_perform a h) as [new ->].
  by apply lookup_app_l_Some.
Qed.

(** A constructor writes the fields of the new object, at an address that
    no constructed object has. *)
Ltac fresh_address := simpl; apply fn_lookup_insert_ne; lia.

(** Only [b.update] writes [b.wasDown], once [b] is constructed. *)
Lemma wasDown_perform (a : Action) (h : Heap) (b : Button) :
  live h b -> updates h b a = false ->
  wasDown (perform a h) (Button_self b) = wasDown h (Button_self b).
Proof.
  intros Hlive Hq. apply lookup_lt_Some in Hlive.
  destruct a as [e|dt b'|dt kb| |kb key|kb key|l r|l r|inner];
    cbn [perform updates] in *.
  - apply wasDown_deliver.
  - apply bool_decide_eq_false in Hq.
    destruct b'; [by apply Key_update_wasDown_ne|..];
      by apply fn_lookup_insert_ne.
  - apply bool_decide_eq_false in Hq.
    by apply forEach_Key_update_frame.
  - done.
  - fresh_address.
  - fresh_address.
  - fresh_address.
  - fresh_address.
  - fresh_address.
Qed.

Lemma wasDown_run (acts : list Action) (h : Heap) (b : Button) :
  live h b -> quiet b acts h = true ->
  wasDown (run acts h) (Button_self b) = wasDown h (Button_self b).
Proof.
  revert h. induction acts as [|a acts IH]; intros h Hlive Hq; [done|].
  change (run (a :: acts) h) with (run acts (perform a h)).
  cbn [quiet] in Hq.
  apply andb_true_iff in Hq as [Ha Hq]. apply negb_true_iff in Ha.
  rewrite IH; [by apply wasDown_perform|by apply live_perform|done].
Qed.

Lemma live_update (dt : number) (b' b : Button) (h : Heap) :
  live h b -> live (update dt b' h) b.
Proof. apply (live_perform (Update dt b')). Qed.

Lemma wasDown_update (dt : number) (b : Button) (h : Heap) :
  wasDown (update dt b h) (Button_self b) = isDown h b.
Proof.
  destruct b; simpl; apply fn_lookup_insert.
Qed.

(** ** Edge detection *)

(** C1.  Take any Button [b] of the heap and call [b.update(dt)] in a heap
    [h]; then let anything happen that does not call [b.update] again: raw
    key events, constructors, updates of other Buttons and of Keyboards that
    do not hold [b].  In the heap [h'] so obtained, [pressed()] is true
    exactly when [isDown()] is true now and was false in [h], when [update]
    was last called, and [release()] exactly when [isDown()] is false now
    and was true in [h].  For a Key, [update] stores in [wasDown] the
    [state] it had before the call, and only then replaces [state] by the
    sample of the raw map. *)
Theorem edge_detection (dt : number) (b : Button) (h : Heap) (acts : list Action) :
  live h b ->
  quiet b acts (update dt b h) = true ->
  let h' := run acts (update dt b h) in
  (pressed h' b = true <-> isDown h' b = true /\ isDown h b = false)
  /\ (release h' b = true <-> isDown h' b = false /\ isDown h b = true)
  /\ (forall k : Key, b = OfKey k ->
        wasDown (update dt b h) (Key_self k) = state h (Key_self k)
        /\ state (update dt b h) (Key_self k)
           = sample (states h (Key_keyboard k)) (Key_key k)).
Proof.
  intros Hlive Hquiet h'.
  assert (Hwas : wasDown h' (Button_self b) = isDown h b).
  { unfold h'. rewrite wasDown_run by (done || by apply live_update).
    apply wasDown_update. }
  unfold pressed, release. rewrite Hwas.
  split; [|split].
  - rewrite andb_true_iff, negb_true_iff. done.
  - rewrite andb_true_iff, negb_true_iff. done.
  - intros k ->. split.
    + apply Key_update_wasDown_eq.
    + apply Key_update_state_eq.
Qed.

(** ** Composite Buttons *)

Lemma isDown_updates (dt : number) (n : nat) (this b : Button) (h : Heap) :
  isDown (Nat.iter n (Button_update dt this) h) b = isDown h b.
Proof.
  induction n as [|n IH]; simpl; [done|].
  by rewrite isDown_Button_update.
Qed.

(** C4.  In every heap, a composite is down as its class combines what its
    children report in that same heap: And by [&&], Or by [||], Not by [!].
    Nothing is cached: whatever the composite's own [update], which it
    inherits from [Button], has or has not run (never since the
    constructor, or [n] times), every Button, the composite included,
    reports what it reported before. *)
Theorem composite_isDown (h : Heap) (self : loc) (a b : Button) :
  isDown h (AndButton self a b) = isDown h a && isDown h b
  /\ isDown h (OrButton self a b) = isDown h a || isDown h b
  /\ isDown h (NotButton self a) = negb (isDown h a)
  /\ (forall (dt : number) (n : nat) (c x : Button),
        isDown (Nat.iter n (Button_update dt c) h) x = isDown h x)
  /\ isDown (snd (new_AndButton a b h)) (fst (new_AndButton a b h))
     = isDown h a && isDown h b
  /\ isDown (snd (new_OrButton a b h)) (fst (new_OrButton a b h))
     = isDown h a || isDown h b
  /\ isDown (snd (new_NotButton a h)) (fst (new_NotButton a h))
     = negb (isDown h a).
Proof.
  repeat split; try reflexivity.
  - intros dt n c x. apply isDown_updates.
  - cbn [new_AndButton fst snd isDown].
    by rewrite !isDown_Button_constructor.
  - cbn [new_OrButton fst snd isDown].
    by rewrite !isDown_Button_constructor.
  - cbn [new_NotButton fst snd isDown].
    by rewrite !isDown_Button_constructor.
Qed.

Lemma reachable_run (acts : list Action) (h : Heap) :
  reachable h -> reachable (run acts h).
Proof.
  revert h. induction acts as [|a acts IH]; intros h Hh; [done|].
  apply IH. by constructor.
Qed.

(** Every combination of the states of two Keys is reached by a program. *)
Lemma two_keys_states (x y : bool) :
  let a := OfKey {| Key_self := 0; Key_keyboard := 0; Key_key := "a" |} in
  let b := OfKey {| Key_self := 1; Key_keyboard := 0; Key_key := "b" |} in
  reachable (two_keys x y)
  /\ live (two_keys x y) a /\ live (two_keys x y) b
  /\ isDown (two_keys x y) a = x /\ isDown (two_keys x y) b = y.
Proof.
  split; [apply reachable_run, reachable_empty|].
  by destruct x, y; vm_compute.
Qed.

(** ** Keys and the raw map *)

Lemma sample_absent (raw : gmap string bool) (key : string) :
  raw !! key = None -> sample raw key = false.
Proof. intros Hnone. unfold sample. rewrite Hnone. by apply bool_decide_eq_false. Qed.

(** A Keyboard starts with an empty raw map. *)
Lemma new_Keyboard_states (h : Heap) (key : string) :
  states (snd (new_Keyboard h)) (fst (new_Keyboard h)) !! key = None.
Proof. simpl. by rewrite fn_lookup_insert. Qed.

(** A name stays absent as long as no key-down event names it. *)
Lemma never_pressed_absent (evs : list RawEvent) (h : Heap) (keyboard : loc) (key : string) :
  states h keyboard !! key = None ->
  KeyDown keyboard key ∉ evs ->
  states (foldl (fun h e => deliver e h) h evs) keyboard !! key = None.
Proof.
  revert h. induction evs as [|e evs IH]; intros h Hnone Hevs; simpl; [done|].
  apply not_elem_of_cons in Hevs as [Hne Hevs].
  apply IH; [|done].
  destruct e as [kb' key'|kb' key']; cbn [deliver]; [unfold onkeydown|];
    [case_decide; [done|]|]; simpl.
  - destruct (decide (kb' = keyboard)) as [->|Hkb].
    + rewrite fn_lookup_insert. rewrite lookup_insert_ne; [done|congruence].
    + by rewrite fn_lookup_insert_ne.
  - destruct (decide (kb' = keyboard)) as [->|Hkb].
    + rewrite fn_lookup_insert. rewrite lookup_delete_None. by right.
    + by rewrite fn_lookup_insert_ne.
Qed.

(** A key-up event makes the name absent. *)
Lemma onkeyup_absent (keyboard : loc) (key : string) (h : Heap) :
  states (onkeyup keyboard key h) keyboard !! key = None.
Proof. simpl. rewrite fn_lookup_insert. apply lookup_delete_eq. Qed.

(** C8.  When the raw map of a Key's Keyboard does not hold the Key's name,
    the Key's [update] makes the Key report up: [isDown()] is false and
    [isUp()] is true.  No lookup fails. *)
Theorem absent_key_is_up (dt : number) (k : Key) (h : Heap) :
  states h (Key_keyboard k) !! Key_key k = None ->
  isDown (update dt (OfKey k) h) (OfKey k) = false
  /\ isUp (update dt (OfKey k) h) (OfKey k) = true.
Proof.
  intros Hnone.
  assert (Hdown : isDown (update dt (OfKey k) h) (OfKey k) = false).
  { cbn [update isDown]. rewrite Key_update_state_eq. by apply sample_absent. }
  unfold isUp. by rewrite Hdown.
Qed.

(** C9.  Deliver any raw key events [evs1] to a heap, or any others [evs2]:
    for every Key the four queries answer the same in both, namely what
    they answered before the events. *)
Theorem raw_events_unobserved (k : Key) (h : Heap) (evs1 evs2 : list RawEvent) :
  let h1 := foldl (fun h e => deliver e h) h evs1 in
  let h2 := foldl (fun h e => deliver e h) h evs2 in
  (isDown h1 (OfKey k) = isDown h2 (OfKey k)
   /\ isUp h1 (OfKey k) = isUp h2 (OfKey k)
   /\ pressed h1 (OfKey k) = pressed h2 (OfKey k)
   /\ release h1 (OfKey k) = release h2 (OfKey k))
  /\ (isDown h1 (OfKey k) = isDown h (OfKey k)
      /\ isUp h1 (OfKey k) = isUp h (OfKey k)
      /\ pressed h1 (OfKey k) = pressed h (OfKey k)
      /\ release h1 (OfKey k) = release h (OfKey k)).
Proof.
  intros h1 h2. unfold isUp, pressed, release, h1, h2.
  rewrite !isDown_delivered, !wasDown_delivered. done.
Qed.

(** ** Button ids *)

(** C10.  [NotButton.id()] returns no string, however deep the calls may
    go: it calls [id()] on the NotButton itself. *)
Theorem NotButton_id_diverges (fuel : nat) (self : loc) (inner : Button) :
  Button_id fuel (NotButton self inner) = None.
Proof.
  induction fuel as [|fuel IH]; [done|].
  cbn [Button_id]. by rewrite IH.
Qed.

(** The id of a Key, by contrast, is returned by the first call. *)
Lemma Key_id (fuel : nat) (k : Key) :
  Button_id (S fuel) (OfKey k) = Some ("Keyboard." +:+ Key_key k).
Proof. done. Qed.

(** ** Keyboard.update *)

(** [Keyboard.keys] is written by the constructor, which empties it, and by
    [Keyboard.key], which appends the Key it returns; by nothing else. *)
Lemma keys_perform (a : Action) (h : Heap) (keyboard : loc) :
  keys (perform a h) keyboard = keys h keyboard
  \/ (a = NewKeyboard /\ keys (perform a h) keyboard = [])
  \/ (exists key k, a = GetKey keyboard key
        /\ fst (Keyboard_key keyboard key h) = OfKey k
        /\ keys (perform a h) keyboard = keys h keyboard ++ [k]).
Proof.
  destruct a as [e|dt b|dt kb| |kb key|kb key|l r|l r|inner]; cbn [perform];
    try (by left).
  - left. by destruct (deliver_rest e h) as (_ & _ & _ & _ & ->).
  - left. by destruct b.
  - left. unfold Keyboard_update.
    by destruct (forEach_Key_update_rest dt (keys h kb) h) as (_ & _ & _ & ->).
  - simpl. destruct (decide (keyboards h = keyboard)) as [<-|Hne].
    + right; left. by rewrite fn_lookup_insert.
    + left. by rewrite fn_lookup_insert_ne.
  - simpl. destruct (decide (kb = keyboard)) as [->|Hne].
    + right; right. eexists key, _. by rewrite fn_lookup_insert.
    + left. by rewrite fn_lookup_insert_ne.
Qed.

Lemma keys_live_perform (a : Action) (h : Heap) :
  keys_live h -> keys_live (perform a h).
Proof.
  intros Hh keyboard k Hk.
  destruct (keys_perform a h keyboard)
    as [Heq|[[-> Heq]|(key & k' & -> & Hfst & Heq)]]; rewrite Heq in Hk.
  - apply live_perform. by apply (Hh keyboard).
  - by apply elem_of_nil in Hk.
  - apply elem_of_app in Hk as [Hk|Hk].
    + apply (live_perform (GetKey keyboard key)). by apply (Hh keyboard).
    + apply list_elem_of_singleton in Hk as ->.
      simplify_eq/=. unfold live. simpl. by apply list_lookup_middle.
Qed.

Lemma reachable_keys_live (h : Heap) : reachable h -> keys_live h.
Proof.
  induction 1 as [|h a _ IH].
  - intros keyboard k Hk. by apply elem_of_nil in Hk.
  - by apply keys_live_perform.
Qed.

(** A composite is not one of the Keys a Keyboard holds. *)
Lemma composite_not_registered (h : Heap) (keyboard : loc) (c : Button) :
  keys_live h -> live h c -> is_composite c = true ->
  Button_self c ∉ Key_self <$> keys h keyboard.
Proof.
  intros Hkeys Hc Hcomp Hin.
  apply list_elem_of_fmap in Hin as (k & Hself & Hk).
  apply Hkeys in Hk. unfold live in Hc, Hk. simpl in Hk.
  rewrite Hself, Hk in Hc. by simplify_eq.
Qed.

(** C5.  In a heap a program can produce, [Keyboard.update(dt)] is
    [Key.update(dt)] on the Keys that Keyboard holds, in order (the Keys
    [Keyboard.key] returned, see [keys_perform]).  It writes no [wasDown] and
    no [state] but theirs, and so leaves the [wasDown] of every composite
    Button of the heap as it was. *)
Theorem Keyboard_update_no_cascade (dt : number) (keyboard : loc) (h : Heap) (c : Button) :
  reachable h ->
  live h c ->
  is_composite c = true ->
  Keyboard_update dt keyboard h
    = foldl (fun h key => update dt (OfKey key) h) h (keys h keyboard)
  /\ (forall l : loc, l ∉ Key_self <$> keys h keyboard ->
        wasDown (Keyboard_update dt keyboard h) l = wasDown h l
        /\ state (Keyboard_update dt keyboard h) l = state h l)
  /\ wasDown (Keyboard_update dt keyboard h) (Button_self c)
     = wasDown h (Button_self c).
Proof.
  intros Hreach Hlive Hcomp.
  split; [done|].
  split.
  - intros l Hl. by apply forEach_Key_update_frame.
  - apply forEach_Key_update_frame.
    apply composite_not_registered; [|done..].
    by apply reachable_keys_live.
Qed.

(** ** The scheduler's rate cap *)

(** C3.  A running scheduler is notified at [timeMS] milliseconds, that is
    at [t = timeMS / 1000] seconds; let [elapsed = t - lastTick].  When
    [elapsed > 1 / targetFPS] it calls the callback with [elapsed], sets
    [lastTick] to [t] and requests the next frame; otherwise it only
    requests the next frame and is unchanged.  So when a notification is
    skipped and the next one is accepted, the callback gets the time since
    the [lastTick] from before the skipped one.  With [targetFPS = 60],
    started from new, and notified at 0, 0.005 and 0.020 seconds, the
    callback is not called on the first two notifications and is called
    once on the third, with 0.020. *)
Theorem scheduler_rate_cap (timeMS : number) (s : KernelScheduler) :
  executing s = true ->
  let t := (timeMS / 1000)%float in
  let elapsed := (t - lastTick s)%float in
  (if (1 / targetFPS s <? elapsed)%float
   then KernelScheduler_tick timeMS s
        = ({| targetFPS := targetFPS s; lastTick := t; executing := true |},
           [Call_callback elapsed; Call_requestAnimationFrame])
   else KernelScheduler_tick timeMS s = (s, [Call_requestAnimationFrame]))
  /\ (forall timeMS' : number,
        (1 / targetFPS s <? elapsed)%float = false ->
        (1 / targetFPS s <? timeMS' / 1000 - lastTick s)%float = true ->
        callbacks (snd (KernelScheduler_ticks [timeMS; timeMS'] s))
        = [(timeMS' / 1000 - lastTick s)%float])
  /\ (let s0 := fst (KernelScheduler_start (new_KernelScheduler 60%float)) in
      (0 / 1000 = 0 /\ 5 / 1000 = 0.005 /\ 20 / 1000 = 0.02)%float
      /\ snd (KernelScheduler_ticks [0%float] s0)
         = [Call_requestAnimationFrame]
      /\ snd (KernelScheduler_ticks [0%float; 5%float] s0)
         = [Call_requestAnimationFrame; Call_requestAnimationFrame]
      /\ snd (KernelScheduler_ticks [0%float; 5%float; 20%float] s0)
         = [Call_requestAnimationFrame; Call_requestAnimationFrame;
            Call_callback 0.02%float; Call_requestAnimationFrame]).
Proof.
  intros Hexec t elapsed.
  assert (Htick : forall ms : number,
    KernelScheduler_tick ms s
    = if (1 / targetFPS s <? ms / 1000 - lastTick s)%float
      then ({| targetFPS := targetFPS s; lastTick := (ms / 1000)%float;
               executing := true |},
            [Call_callback (ms / 1000 - lastTick s)%float;
             Call_requestAnimationFrame])
      else (s, [Call_requestAnimationFrame])).
  { intros ms. unfold KernelScheduler_tick. rewrite Hexec.
    by destruct (1 / targetFPS s <? ms / 1000 - lastTick s)%float. }
  split; [|split].
  - rewrite Htick. fold t elapsed.
    by destruct (1 / targetFPS s <? elapsed)%float.
  - intros timeMS' Hskip Haccept.
    unfold KernelScheduler_ticks. cbn [foldl].
    rewrite (Htick timeMS). fold t elapsed. rewrite Hskip.
    rewrite (Htick timeMS'), Haccept. done.
  - repeat split; vm_compute; reflexivity.
Qed.

(** ** The Kernel's tick and its stack of Scenes *)

Lemma last_None_nil {A : Type} (l : list A) : last l = None <-> l = [].
Proof. apply last_None. Qed.

(** What [tick] returns, by the Scene on top of the stack it starts from. *)
Lemma Kernel_tick_run (dt : number) (w : World) :
  let keyboard := keyboardDevice (kernel w) in
  let w1 := on_heap (Keyboard_update dt keyboard) w in
  Kernel_tick dt w
  = match last (scenes (kernel w)) with
    | Some scene =>
        let w2 := Scene_update scene dt w1 in
        (tt,
         Scene_render scene dt (clear_canvas w2),
         [Call_Keyboard_update keyboard dt;
          Call_Scene_update scene dt;
          Call_clearRect 0%float 0%float
            (canvas_width (canvas (kernel w2)))
            (canvas_height (canvas (kernel w2)));
          Call_Scene_render scene dt])
    | None =>
        (tt,
         clear_canvas w1,
         [Call_Keyboard_update keyboard dt;
          Call_clearRect 0%float 0%float
            (canvas_width (canvas (kernel w)))
            (canvas_height (canvas (kernel w)))])
    end.
Proof.
  intros keyboard w1.
  assert (Htop : fst (fst (Kernel_scene w1)) = last (scenes (kernel w))) by done.
  unfold Kernel_tick, mbind, M_bind, gets, call, Kernel_scene in *.
  fold keyboard. fold w1. simpl in Htop |- *.
  by destruct (last (scenes (kernel w))).
Qed.

(** C2.  One tick, from any world [w].  The Keyboard is updated first; it
    does not touch the stack, so the active Scene is the top of the stack
    of [w].  With a Scene [scene] on top, [tick] then calls
    [scene.update(dt)], clears the canvas, and calls [scene.render(dt, c)]
    on that same Scene, in this order.  With an empty stack it updates the
    Keyboard and clears the canvas, and calls nothing else. *)
Theorem Kernel_tick_order (dt : number) (w : World) :
  let keyboard := keyboardDevice (kernel w) in
  let w1 := on_heap (Keyboard_update dt keyboard) w in
  let full (c : Canvas) :=
    Call_clearRect 0%float 0%float (canvas_width c) (canvas_height c) in
  match last (scenes (kernel w)) with
  | Some scene =>
      let w2 := Scene_update scene dt w1 in
      Kernel_tick dt w
      = (tt,
         Scene_render scene dt (clear_canvas w2),
         [Call_Keyboard_update keyboard dt;
          Call_Scene_update scene dt;
          full (canvas (kernel w2));
          Call_Scene_render scene dt])
  | None =>
      scenes (kernel w) = []
      /\ Kernel_tick dt w
         = (tt,
            clear_canvas w1,
            [Call_Keyboard_update keyboard dt; full (canvas (kernel w))])
  end.
Proof.
  intros keyboard w1 full.
  pose proof (Kernel_tick_run dt w) as Hrun. cbv zeta in Hrun.
  fold keyboard in Hrun. fold w1 in Hrun.
  destruct (last (scenes (kernel w))) as [scene|] eqn:Hlast.
  - exact Hrun.
  - split; [by apply last_None_nil|exact Hrun].
Qed.

(** C6.  With [b] on top of [a], [swap(c)] is [pop()] followed by [push(c)]
    and leaves [c] on top of [a], with the rest of the stack, the heap and
    the Scenes' own state as they were.  It makes no call: nothing else
    runs between its pop and its push, so no tick starts from the stack
    without its top, and the tick that comes next updates and renders
    [c]. *)
Theorem Kernel_swap_atomic (a b c : Scene) (below : list Scene) (w : World) :
  scenes (kernel w) = below ++ [a; b] ->
  let w' := world_after (Kernel_swap c) w in
  Kernel_swap c w = (Kernel_pop;; Kernel_push c) w
  /\ scenes (kernel w') = below ++ [a; c]
  /\ active w' = Some c
  /\ active (world_after Kernel_pop w') = Some a
  /\ calls_of (Kernel_swap c) w = []
  /\ heap w' = heap w
  /\ game w' = game w
  /\ (forall dt : number,
        let keyboard := keyboardDevice (kernel w) in
        let w2 := Scene_update c dt (on_heap (Keyboard_update dt keyboard) w') in
        calls_of (Kernel_tick dt) w'
        = [Call_Keyboard_update keyboard dt;
           Call_Scene_update c dt;
           Call_clearRect 0%float 0%float
             (canvas_width (canvas (kernel w2)))
             (canvas_height (canvas (kernel w2)));
           Call_Scene_render c dt]).
Proof.
  intros Hstack w'.
  assert (Hswap : scenes (kernel w') = below ++ [a; c]).
  { unfold w', world_after. simpl. rewrite Hstack.
    change [a; b] with ([a] ++ [b]). rewrite app_assoc, removelast_last.
    by rewrite <- app_assoc. }
  assert (Hactive : last (scenes (kernel w')) = Some c).
  { rewrite Hswap. change [a; c] with ([a] ++ [c]).
    by rewrite app_assoc, last_snoc. }
  split; [done|]. split; [done|]. split; [done|].
  split; [|split; [done|split; [done|split; [done|]]]].
  - unfold active, Kernel_scene, gets. cbn [fst].
    change (scenes (kernel (world_after Kernel_pop w')))
      with (removelast (scenes (kernel w'))).
    rewrite Hswap. change [a; c] with ([a] ++ [c]).
    by rewrite app_assoc, removelast_last, last_snoc.
  - intros dt keyboard w2. unfold calls_of.
    rewrite Kernel_tick_run. cbv zeta. by rewrite Hactive.
Qed.

(** C7.  [push(a); push(b); pop()] leaves exactly the world that [push(a)]
    left: [a] is the active Scene, and the heap, the Scenes' own state and
    the rest of the stack are what they were.  [pop()] by itself writes
    nothing but the stack, from which it removes the top, and calls
    nothing. *)
Theorem push_push_pop (a b : Scene) (w : World) :
  let w' := world_after (Kernel_push a;; Kernel_push b;; Kernel_pop) w in
  w' = world_after (Kernel_push a) w
  /\ active w' = Some a
  /\ game w' = game w
  /\ heap w' = heap w
  /\ scenes (kernel w') = scenes (kernel w) ++ [a]
  /\ calls_of (Kernel_push a;; Kernel_push b;; Kernel_pop) w = []
  /\ (forall w0 : World,
        game (world_after Kernel_pop w0) = game w0
        /\ heap (world_after Kernel_pop w0) = heap w0
        /\ scenes (kernel (world_after Kernel_pop w0))
           = removelast (scenes (kernel w0))
        /\ calls_of Kernel_pop w0 = []).
Proof.
  intros w'.
  assert (Hw' : w' = world_after (Kernel_push a) w).
  { unfold w', world_after. simpl. unfold on_kernel, set_scenes. simpl.
    by rewrite removelast_last. }
  split; [done|]. rewrite Hw'.
  repeat split.
  unfold active, world_after. simpl. apply last_snoc.
Qed.

(** * More of the code *)

(** ** Edges *)

(** X1.  [pressed()] and [release()] are never true together; a pressed Button
    is down and a released one is up.  The update a composite inherits ends
    its edge: right after it the composite is neither pressed nor
    released, and is down exactly when it was. *)
Theorem edges_exclusive (h : Heap) (b : Button) :
  pressed h b && release h b = false
  /\ (pressed h b = true -> isDown h b = true /\ isUp h b = false)
  /\ (release h b = true -> isUp h b = true /\ isDown h b = false)
  /\ (forall dt : number,
        pressed (Button_update dt b h) b = false
        /\ release (Button_update dt b h) b = false
        /\ isDown (Button_update dt b h) b = isDown h b).
Proof.
  unfold pressed, release, isUp.
  split; [|split; [|split]].
  - by destruct (isDown h b), (wasDown h (Button_self b)).
  - by destruct (isDown h b), (wasDown h (Button_self b)).
  - by destruct (isDown h b), (wasDown h (Button_self b)).
  - intros dt. rewrite isDown_Button_update.
    cbn [Button_update set_wasDown wasDown]. rewrite fn_lookup_insert.
    by destruct (isDown h b).
Qed.

(** ** What a composite reads *)

Lemma isDown_leaves (h h' : Heap) (b : Button) :
  (forall k, k ∈ leaves b -> state h (Key_self k) = state h' (Key_self k)) ->
  isDown h b = isDown h' b.
Proof.
  induction b as [k|self l IHl r IHr|self l IHl r IHr|self inner IH];
    intros Hst; cbn [leaves isDown] in *.
  - apply Hst. by apply list_elem_of_singleton.
  - rewrite IHl, IHr; [done|intros k Hk; apply Hst, elem_of_app; auto..].
  - rewrite IHl, IHr; [done|intros k Hk; apply Hst, elem_of_app; auto..].
  - by rewrite IH.
Qed.

(** X2.  A Button, however deeply composed, reads the [state] of the Keys at its
    leaves and nothing else: it answers the same in two heaps that agree on
    those, and the update of any Button that is not one of them, Key or
    composite, does not change its answer. *)
Theorem isDown_reads_leaves (h : Heap) (b : Button) :
  (forall h' : Heap,
     (forall k, k ∈ leaves b -> state h (Key_self k) = state h' (Key_self k)) ->
     isDown h b = isDown h' b)
  /\ (forall (dt : number) (other : Button),
        Button_self other ∉ Key_self <$> leaves b ->
        isDown (update dt other h) b = isDown h b).
Proof.
  split.
  - intros h'. apply isDown_leaves.
  - intros dt other Hother. apply isDown_leaves. intros k Hk.
    assert (Hne : Key_self k ≠ Button_self other).
    { intros Heq. apply Hother. rewrite <- Heq.
      apply list_elem_of_fmap. by exists k. }
    destruct other as [k'| | |]; [|done..].
    cbn [update]. by rewrite Key_update_state_ne.
Qed.

(** ** Ids *)

Lemma NotButton_id_None (fuel : nat) (self : loc) (inner : Button) :
  Button_id fuel (NotButton self inner) = None.
Proof.
  induction fuel as [|fuel IH]; [done|].
  cbn [Button_id]. by rewrite IH.
Qed.

(** X3.  [id()] returns a string exactly for the Buttons whose chain of left
    operands ends in a Key without passing a NotButton, and then at the
    depth of that chain and with the same string at every greater depth.
    The right operand of an AndButton or OrButton decides nothing: its
    [id] is printed, never called, so a NotButton there does no harm,
    while one on the left makes the whole id fail to return. *)
Theorem Button_id_returns (b : Button) :
  (if id_returns b
   then exists s : string, forall fuel : nat,
          Button_id fuel b = if decide (id_depth b <= fuel) then Some s else None
   else forall fuel : nat, Button_id fuel b = None)
  /\ (forall (self : loc) (k : Key) (r : Button) (fuel : nat),
        Button_id (S (S fuel)) (AndButton self (OfKey k) r)
        = Some ("(Keyboard." +:+ Key_key k +:+ ")&(" +:+ method_text r +:+ ")"))
  /\ (forall (self self' : loc) (inner r : Button) (fuel : nat),
        Button_id fuel (OrButton self (NotButton self' inner) r) = None).
Proof.
  split; [|split].
  - induction b as [k|self l IHl r _|self l IHl r _|self inner _];
      cbn [id_returns id_depth].
    + exists ("Keyboard." +:+ Key_key k). intros [|fuel]; [done|].
      rewrite decide_True by lia. done.
    + destruct (id_returns l).
      * destruct IHl as [s Hs].
        exists ("(" +:+ s +:+ ")&(" +:+ method_text r +:+ ")").
        intros [|fuel]; [by rewrite decide_False by lia|].
        cbn [Button_id]. rewrite Hs.
        destruct (decide (id_depth l <= fuel)).
        -- by rewrite decide_True by lia.
        -- by rewrite decide_False by lia.
      * intros [|fuel]; [done|]. cbn [Button_id]. by rewrite IHl.
    + destruct (id_returns l).
      * destruct IHl as [s Hs].
        exists ("(" +:+ s +:+ ")|(" +:+ method_text r +:+ ")").
        intros [|fuel]; [by rewrite decide_False by lia|].
        cbn [Button_id]. rewrite Hs.
        destruct (decide (id_depth l <= fuel)).
        -- by rewrite decide_True by lia.
        -- by rewrite decide_False by lia.
      * intros [|fuel]; [done|]. cbn [Button_id]. by rewrite IHl.
    + intros fuel. apply NotButton_id_None.
  - done.
  - intros self self' inner r [|fuel]; [done|].
    cbn [Button_id]. by rewrite NotButton_id_None.
Qed.

(** ** The Keys of a Keyboard *)

Lemma keys_wf_perform (a : Action) (h : Heap) :
  keys_wf h -> keys_wf (perform a h).
Proof.
  intros Hh keyboard. destruct (Hh keyboard) as [Hnodup Hkeys].
  destruct (keys_perform a h keyboard)
    as [Heq|[[-> Heq]|(key & k' & -> & Hfst & Heq)]]; rewrite Heq.
  - split; [done|]. intros k Hk. destruct (Hkeys k Hk) as [Hkb Hlive].
    split; [done|by apply live_perform].
  - split; [constructor|]. intros k Hk. by apply elem_of_nil in Hk.
  - simplify_eq/=. split.
    + rewrite fmap_app. apply NoDup_app. split; [done|]. split.
      * intros l Hl Hnew. apply list_elem_of_singleton in Hnew as ->.
        apply list_elem_of_fmap in Hl as (k & Hself & Hk).
        destruct (Hkeys k Hk) as [_ Hlive]. apply lookup_lt_Some in Hlive.
        simpl in Hlive, Hself. lia.
      * apply NoDup_singleton.
    + intros k Hk. apply elem_of_app in Hk as [Hk|Hk].
      * destruct (Hkeys k Hk) as [Hkb Hlive]. split; [done|].
        by apply (live_perform (GetKey keyboard key)).
      * apply list_elem_of_singleton in Hk as ->. split; [done|].
        unfold live. simpl. by apply list_lookup_middle.
Qed.

Lemma reachable_keys_wf (h : Heap) : reachable h -> keys_wf h.
Proof.
  induction 1 as [|h a _ IH].
  - intros keyboard. split; [constructor|].
    intros k Hk. by apply elem_of_nil in Hk.
  - by apply keys_wf_perform.
Qed.

Lemma reachable_delivered (evs : list RawEvent) (h : Heap) :
  reachable h -> reachable (delivered evs h).
Proof.
  revert h. induction evs as [|e evs IH]; intros h Hh; [done|].
  apply IH. apply (reachable_perform h (Raw e) Hh).
Qed.

Lemma delivered_rest (evs : list RawEvent) (h : Heap) :
  buttons (delivered evs h) = buttons h /\ wasDown (delivered evs h) = wasDown h
  /\ state (delivered evs h) = state h /\ keys (delivered evs h) = keys h.
Proof.
  revert h. induction evs as [|e evs IH]; intros h; [done|].
  change (delivered (e :: evs) h) with (delivered evs (deliver e h)).
  destruct (IH (deliver e h)) as (-> & -> & -> & ->).
  by destruct (deliver_rest e h) as (-> & -> & -> & _ & ->).
Qed.

(** [forEach] over Keys that are all different: each gets the sample of the
    raw map as its [state], and its old [state] as [wasDown]. *)
Lemma forEach_Key_update_sync (dt : number) (ks : list Key) (h : Heap) (k : Key) :
  NoDup (Key_self <$> ks) -> k ∈ ks ->
  let h' := foldl (fun h key => Key_update dt key h) h ks in
  state h' (Key_self k) = sample (states h (Key_keyboard k)) (Key_key k)
  /\ wasDown h' (Key_self k) = state h (Key_self k).
Proof.
  revert h. induction ks as [|k0 ks IH]; intros h Hnodup Hk; simpl.
  { by apply elem_of_nil in Hk. }
  rewrite fmap_cons in Hnodup. apply NoDup_cons in Hnodup as [Hk0 Hnodup].
  apply elem_of_cons in Hk as [->|Hk].
  - destruct (forEach_Key_update_frame dt ks (Key_update dt k0 h) (Key_self k0) Hk0)
      as [-> ->].
    by rewrite Key_update_state_eq, Key_update_wasDown_eq.
  - destruct (IH (Key_update dt k0 h) Hnodup Hk) as [-> ->].
    assert (Hne : Key_self k ≠ Key_self k0).
    { intros Heq. apply Hk0. rewrite <- Heq.
      apply list_elem_of_fmap. by exists k. }
    by rewrite Key_update_state_ne.
Qed.

Lemma Keyboard_update_registered (dt : number) (keyboard : loc) (h : Heap) (k : Key) :
  reachable h -> k ∈ keys h keyboard ->
  state (Keyboard_update dt keyboard h) (Key_self k)
  = sample (states h keyboard) (Key_key k)
  /\ wasDown (Keyboard_update dt keyboard h) (Key_self k) = state h (Key_self k).
Proof.
  intros Hreach Hk.
  destruct (reachable_keys_wf h Hreach keyboard) as [Hnodup Hkeys].
  destruct (Hkeys k Hk) as [<- _].
  by apply forEach_Key_update_sync.
Qed.

(** X4.  In every heap that a sequence of actions builds from the empty one, a
    Keyboard holds no Key twice: two of its Keys with one address are one
    Key.  Each of them is bound to this Keyboard and is an object of the
    heap. *)
Theorem Keyboard_keys_invariant (acts : list Action) (keyboard : loc) :
  let h := run acts empty_heap in
  NoDup (keys h keyboard)
  /\ (forall k1 k2, k1 ∈ keys h keyboard -> k2 ∈ keys h keyboard ->
        Key_self k1 = Key_self k2 -> k1 = k2)
  /\ (forall k, k ∈ keys h keyboard ->
        Key_keyboard k = keyboard /\ buttons h !! Key_self k = Some (OfKey k)).
Proof.
  intros h.
  assert (Hwf : keys_wf h) by apply reachable_keys_wf, reachable_run, reachable_empty.
  destruct (Hwf keyboard) as [Hnodup Hkeys].
  split; [by apply (NoDup_fmap_1 Key_self)|]. split; [|done].
  intros k1 k2 Hk1 Hk2 Heq.
  destruct (Hkeys k1 Hk1) as [_ Hl1]. destruct (Hkeys k2 Hk2) as [_ Hl2].
  unfold live in Hl1, Hl2. simpl in Hl1, Hl2. rewrite Heq, Hl2 in Hl1.
  by simplify_eq.
Qed.

(** X5.  [Keyboard.update] is the barrier between the raw map and the Keys: in a
    heap a program can produce, after it every Key the Keyboard holds is
    down exactly when the raw map holds its name, remembers in [wasDown]
    what it reported before, and so is pressed exactly when the name is
    held and the Key was up, released exactly when the name is absent and
    the Key was down.  The raw map itself is not written. *)
Theorem Keyboard_update_sync (dt : number) (keyboard : loc) (h : Heap) (k : Key) :
  reachable h ->
  k ∈ keys h keyboard ->
  let h' := Keyboard_update dt keyboard h in
  let held := sample (states h keyboard) (Key_key k) in
  isDown h' (OfKey k) = held
  /\ pressed h' (OfKey k) = held && negb (isDown h (OfKey k))
  /\ release h' (OfKey k) = negb held && isDown h (OfKey k)
  /\ states h' = states h.
Proof.
  intros Hreach Hk h' held.
  destruct (Keyboard_update_registered dt keyboard h k Hreach Hk) as [Hst Hwas].
  unfold pressed, release. cbn [isDown Button_self]. fold h' in Hst, Hwas.
  rewrite Hst, Hwas. repeat split.
  unfold h', Keyboard_update.
  by destruct (forEach_Key_update_rest dt (keys h keyboard) h) as (_ & _ & -> & _).
Qed.

Lemma Keyboard_update_keys (dt : number) (keyboard keyboard' : loc) (h : Heap) :
  keys (Keyboard_update dt keyboard h) keyboard' = keys h keyboard'.
Proof.
  unfold Keyboard_update.
  by destruct (forEach_Key_update_rest dt (keys h keyboard) h) as (_ & _ & _ & ->).
Qed.

(** X6.  Two updates of a Keyboard with any raw events between them.  What a Key
    of the Keyboard reports after the second is decided by the raw map at
    the two updates alone: pressed when its name is held at the second and
    was not at the first, released the other way round.  When the name is
    held at both, or at neither, the Key shows no edge and is down as
    before, whatever was pressed and released in between. *)
Theorem edges_between_updates (dt dt' : number) (keyboard : loc) (h : Heap) (k : Key)
    (evs : list RawEvent) :
  reachable h ->
  k ∈ keys h keyboard ->
  let h1 := Keyboard_update dt keyboard h in
  let h2 := Keyboard_update dt' keyboard (delivered evs h1) in
  let held1 := sample (states h keyboard) (Key_key k) in
  let held2 := sample (states (delivered evs h1) keyboard) (Key_key k) in
  pressed h2 (OfKey k) = held2 && negb held1
  /\ release h2 (OfKey k) = negb held2 && held1
  /\ (held2 = held1 ->
        pressed h2 (OfKey k) = false /\ release h2 (OfKey k) = false
        /\ isDown h2 (OfKey k) = isDown h1 (OfKey k)).
Proof.
  intros Hreach Hk h1 h2 held1 held2.
  assert (Hreach1 : reachable (delivered evs h1)).
  { apply reachable_delivered, (reachable_perform h (UpdateKeyboard dt keyboard) Hreach). }
  assert (Hk1 : k ∈ keys (delivered evs h1) keyboard).
  { destruct (delivered_rest evs h1) as (_ & _ & _ & ->).
    unfold h1. by rewrite Keyboard_update_keys. }
  destruct (Keyboard_update_registered dt keyboard h k Hreach Hk) as [Hst1 _].
  destruct (Keyboard_update_registered dt' keyboard _ k Hreach1 Hk1) as [Hst2 Hwas2].
  fold h1 in Hst1. fold h2 in Hst2, Hwas2. fold held1 in Hst1. fold held2 in Hst2.
  destruct (delivered_rest evs h1) as (_ & _ & Hmid & _). rewrite Hmid, Hst1 in Hwas2.
  unfold pressed, release. cbn [isDown Button_self]. rewrite Hst1, Hst2, Hwas2.
  split; [done|]. split; [done|].
  intros ->. by destruct held1.
Qed.

(** ** The raw map *)

Lemma sample_insert (raw : gmap string bool) (key key' : string) :
  sample (<[key' := true]> raw) key
  = if decide (key' = key) then true else sample raw key.
Proof.
  unfold sample. case_decide as Hkey.
  - subst. rewrite lookup_insert_eq. by apply bool_decide_eq_true.
  - by rewrite lookup_insert_ne.
Qed.

Lemma sample_delete (raw : gmap string bool) (key key' : string) :
  sample (delete key' raw) key
  = if decide (key' = key) then false else sample raw key.
Proof.
  unfold sample. case_decide as Hkey.
  - subst. rewrite lookup_delete_eq. by apply bool_decide_eq_false.
  - by rewrite lookup_delete_ne.
Qed.

Lemma deliver_sample (e : RawEvent) (keyboard : loc) (key : string) (h : Heap) :
  sample (states (deliver e h) keyboard) key
  = if writes e keyboard key
    then match e with KeyDown _ _ => true | KeyUp _ _ => false end
    else sample (states h keyboard) key.
Proof.
  destruct e as [kb' key'|kb' key']; cbn [deliver writes].
  - unfold onkeydown. case_decide as Hproto.
    + rewrite bool_decide_eq_false_2; [done|]. intros (_ & -> & Hne). done.
    + cbn [states set_states].
      destruct (decide (kb' = keyboard)) as [->|Hkb].
      * rewrite fn_lookup_insert, sample_insert.
        case_decide as Hkey.
        -- subst. by rewrite bool_decide_eq_true_2.
        -- rewrite bool_decide_eq_false_2; [done|]. by intros (_ & ? & _).
      * rewrite fn_lookup_insert_ne by done.
        rewrite bool_decide_eq_false_2; [done|]. by intros (? & _).
  - cbn [onkeyup states set_states].
    destruct (decide (kb' = keyboard)) as [->|Hkb].
    + rewrite fn_lookup_insert, sample_delete.
      case_decide as Hkey.
      * subst. by rewrite bool_decide_eq_true_2.
      * rewrite bool_decide_eq_false_2; [done|]. by intros (_ & ?).
    + rewrite fn_lookup_insert_ne by done.
      rewrite bool_decide_eq_false_2; [done|]. by intros (? & _).
Qed.

(** X7.  After any raw events, a name is held exactly as the last event that
    names it on this Keyboard says: held after a key-down, not held after a
    key-up, and as before when no event names it.  Events of other
    Keyboards and of other names do not count, and neither does a key-down
    of ["__proto__"], which is never held in a new Keyboard. *)
Theorem raw_map_last_event (evs : list RawEvent) (keyboard : loc) (key : string)
    (h : Heap) :
  sample (states (delivered evs h) keyboard) key
  = held_after evs keyboard key (sample (states h keyboard) key)
  /\ sample (states (delivered (evs ++ [KeyUp keyboard key]) h) keyboard) key
     = false
  /\ sample (states (delivered (evs ++ [KeyDown keyboard key]) h) keyboard) key
     = (if decide (key = "__proto__")
        then sample (states (delivered evs h) keyboard) key else true)
  /\ sample (states (delivered evs (snd (new_Keyboard h))) (fst (new_Keyboard h)))
       "__proto__" = false.
Proof.
  assert (Hall : forall evs h,
    sample (states (delivered evs h) keyboard) key
    = held_after evs keyboard key (sample (states h keyboard) key)).
  { clear. intros evs. induction evs as [|e evs IH]; intros h; [done|].
    change (delivered (e :: evs) h) with (delivered evs (deliver e h)).
    rewrite IH, deliver_sample. done. }
  split; [apply Hall|]. split; [|split].
  - unfold delivered. rewrite foldl_app. cbn [foldl].
    rewrite deliver_sample. cbn [writes]. by rewrite bool_decide_eq_true_2.
  - unfold delivered. rewrite foldl_app. cbn [foldl].
    rewrite deliver_sample. cbn [writes].
    case_decide as Hproto.
    + rewrite bool_decide_eq_false_2; [done|]. by intros (_ & _ & ?).
    + by rewrite bool_decide_eq_true_2.
  - clear. set (kb := fst (new_Keyboard h)).
    assert (Hnew : sample (states (snd (new_Keyboard h)) kb) "__proto__" = false).
    { apply sample_absent, new_Keyboard_states. }
    revert Hnew. generalize (snd (new_Keyboard h)). clear.
    induction evs as [|e evs IH]; intros h0 Hh0; [done|].
    change (delivered (e :: evs) h0) with (delivered evs (deliver e h0)).
    apply IH. rewrite deliver_sample.
    destruct e as [kb' key'|kb' key']; cbn [writes].
    + rewrite bool_decide_eq_false_2; [done|]. by intros (_ & _ & ?).
    + by case_bool_decide.
Qed.

(** ** Keyboard.key *)

Lemma reachable_Keyboard_key (keyboard : loc) (key : string) (h : Heap) :
  reachable h -> reachable (snd (Keyboard_key keyboard key h)).
Proof. apply (reachable_perform h (GetKey keyboard key)). Qed.

Lemma Keyboard_key_result (keyboard : loc) (key : string) (h : Heap) :
  let k := {| Key_self := length (buttons h); Key_keyboard := keyboard;
              Key_key := key |} in
  fst (Keyboard_key keyboard key h) = OfKey k
  /\ keys (snd (Keyboard_key keyboard key h)) keyboard = keys h keyboard ++ [k]
  /\ buttons (snd (Keyboard_key keyboard key h)) = buttons h ++ [OfKey k]
  /\ states (snd (Keyboard_key keyboard key h)) = states h.
Proof. simpl. by rewrite fn_lookup_insert. Qed.


(** X9.  Two calls of [Keyboard.key] with one name give two Keys, two objects
    with their own [wasDown]: the update of one alone does not write the
    other's.  Both are registered, so after any raw events and the
    Keyboard's update they are down together or up together. *)
Theorem Keyboard_key_twice (keyboard : loc) (key : string) (h : Heap) :
  reachable h ->
  let b1 := fst (Keyboard_key keyboard key h) in
  let h1 := snd (Keyboard_key keyboard key h) in
  let b2 := fst (Keyboard_key keyboard key h1) in
  let h2 := snd (Keyboard_key keyboard key h1) in
  Button_self b1 ≠ Button_self b2
  /\ (forall dt : number,
        wasDown (update dt b1 h2) (Button_self b2) = wasDown h2 (Button_self b2)
        /\ isDown (update dt b1 h2) b2 = isDown h2 b2)
  /\ (forall (dt : number) (evs : list RawEvent),
        let h' := Keyboard_update dt keyboard (delivered evs h2) in
        isDown h' b1 = sample (states (delivered evs h2) keyboard) key
        /\ isDown h' b2 = isDown h' b1).
Proof.
  intros Hreach b1 h1 b2 h2.
  destruct (Keyboard_key_result keyboard key h) as (Hb1 & Hkeys1 & Hbuttons1 & _).
  destruct (Keyboard_key_result keyboard key h1) as (Hb2 & Hkeys2 & _).
  cbv zeta in Hb1, Hb2. fold b1 in Hb1. fold h1 in Hkeys1, Hbuttons1, Hb2, Hkeys2.
  fold b2 in Hb2. fold h2 in Hkeys2.
  rewrite Hbuttons1, length_app in Hb2, Hkeys2. cbn [length] in Hb2, Hkeys2.
  rewrite Hkeys1 in Hkeys2.
  set (k1 := {| Key_self := length (buttons h); Key_keyboard := keyboard;
                Key_key := key |}) in *.
  set (k2 := {| Key_self := length (buttons h) + 1; Key_keyboard := keyboard;
                Key_key := key |}) in *.
  assert (Hne : Key_self k2 ≠ Key_self k1) by (simpl; lia).
  rewrite Hb1, Hb2. cbn [Button_self].
  split; [done|]. split.
  - intros dt. cbn [update isDown].
    by rewrite Key_update_wasDown_ne, Key_update_state_ne.
  - intros dt evs. cbv zeta.
    set (h' := Keyboard_update dt keyboard (delivered evs h2)).
    assert (Hreach2 : reachable (delivered evs h2)).
    { by apply reachable_delivered, reachable_Keyboard_key, reachable_Keyboard_key. }
    assert (Hin : forall k, k ∈ [k1; k2] -> k ∈ keys (delivered evs h2) keyboard).
    { intros k Hk. destruct (delivered_rest evs h2) as (_ & _ & _ & ->).
      rewrite Hkeys2, <- app_assoc. apply elem_of_app. by right. }
    destruct (Keyboard_update_registered dt keyboard _ k1 Hreach2) as [Hst1 _].
    { apply Hin, list_elem_of_here. }
    destruct (Keyboard_update_registered dt keyboard _ k2 Hreach2) as [Hst2 _].
    { apply Hin, list_elem_of_further, list_elem_of_here. }
    cbn [isDown]. fold h' in Hst1, Hst2. by rewrite Hst1, Hst2.
Qed.

(** ** Starting and stopping the scheduler *)

Lemma KernelScheduler_ticks_cons (timeMS : number) (times : list number)
    (s : KernelScheduler) :
  KernelScheduler_ticks (timeMS :: times) s
  = (fst (KernelScheduler_ticks times (fst (KernelScheduler_tick timeMS s))),
     snd (KernelScheduler_tick timeMS s)
       ++ snd (KernelScheduler_ticks times (fst (KernelScheduler_tick timeMS s)))).
Proof.
  unfold KernelScheduler_ticks. cbn [foldl].
  destruct (KernelScheduler_tick timeMS s) as [s1 calls1]. cbn [fst snd app].
  generalize s1 as s0. generalize calls1 as acc.
  induction times as [|t times IH]; intros acc s0; cbn [foldl].
  - by rewrite app_nil_r.
  - destruct (KernelScheduler_tick t s0) as [s2 calls2]. cbn [app].
    rewrite (IH (acc ++ calls2) s2), (IH calls2 s2). cbn [fst snd].
    by rewrite app_assoc.
Qed.

Lemma KernelScheduler_tick_running (timeMS : number) (s : KernelScheduler) :
  executing s = true ->
  let r := KernelScheduler_tick timeMS s in
  executing (fst r) = true /\ targetFPS (fst r) = targetFPS s
  /\ requests (snd r) = 1 /\ length (callbacks (snd r)) <= 1.
Proof.
  intros Hexec. unfold KernelScheduler_tick. rewrite Hexec.
  destruct (1 / targetFPS s <? timeMS / 1000 - lastTick s)%float; simpl;
    repeat split; (done || lia).
Qed.

(** X10.  [start()] leaves the scheduler running and is idempotent: it requests
    a frame only when the scheduler was not running, so two starts in a row
    make one request, and the second changes nothing.  It keeps [lastTick]
    and [targetFPS]. *)
Theorem KernelScheduler_start_idempotent (s : KernelScheduler) :
  let s1 := fst (KernelScheduler_start s) in
  executing s1 = true
  /\ lastTick s1 = lastTick s /\ targetFPS s1 = targetFPS s
  /\ snd (KernelScheduler_start s)
     = (if executing s then [] else [Call_requestAnimationFrame])
  /\ KernelScheduler_start s1 = (s1, [])
  /\ requests (snd (KernelScheduler_start s) ++ snd (KernelScheduler_start s1))
     = (if executing s then 0 else 1).
Proof.
  intros s1. unfold s1, KernelScheduler_start.
  destruct s as [fps last [|]]; by cbn.
Qed.

(** X11.  [stop()] halts the loop without cancelling anything: whatever
    notifications still arrive, the stopped scheduler calls nothing, asks
    for no further frame and stays as it is.  It forgets [lastTick], so
    after the next [start()], which requests a frame again, the first
    accepted tick is measured from 0 and not from the tick before the
    stop. *)
Theorem KernelScheduler_stop_halts (s : KernelScheduler) (times : list number) :
  KernelScheduler_ticks times (KernelScheduler_stop s) = (KernelScheduler_stop s, [])
  /\ lastTick (KernelScheduler_stop s) = 0%float
  /\ (let restarted := KernelScheduler_start (KernelScheduler_stop s) in
      snd restarted = [Call_requestAnimationFrame]
      /\ forall timeMS : number,
           callbacks (snd (KernelScheduler_tick timeMS (fst restarted)))
           = if (1 / targetFPS s <? timeMS / 1000 - 0)%float
             then [(timeMS / 1000 - 0)%float] else []).
Proof.
  split; [|split; [done|split; [done|]]].
  - induction times as [|t times IH]; [done|].
    rewrite KernelScheduler_ticks_cons.
    change (KernelScheduler_tick t (KernelScheduler_stop s))
      with (KernelScheduler_stop s, @nil SchedulerCall).
    cbn [fst snd]. by rewrite IH.
  - intros timeMS. cbn.
    by destruct (1 / targetFPS s <? timeMS / 1000 - 0)%float.
Qed.

(** X12.  A running scheduler keeps running: over any notifications it stays
    [executing] with the same [targetFPS], asks for exactly one new frame
    per notification, and calls the callback at most once per
    notification. *)
Theorem KernelScheduler_keeps_running (times : list number) (s : KernelScheduler) :
  executing s = true ->
  let r := KernelScheduler_ticks times s in
  executing (fst r) = true
  /\ targetFPS (fst r) = targetFPS s
  /\ requests (snd r) = length times
  /\ length (callbacks (snd r)) <= length times.
Proof.
  revert s. induction times as [|t times IH]; intros s Hexec; [by cbn|].
  cbv zeta. rewrite KernelScheduler_ticks_cons. cbn [fst snd].
  destruct (KernelScheduler_tick_running t s Hexec) as (Hexec1 & Hfps1 & Hreq1 & Hcb1).
  destruct (IH _ Hexec1) as (Hexec2 & Hfps2 & Hreq2 & Hcb2).
  split; [done|]. split; [congruence|].
  unfold requests, callbacks in *. rewrite !omap_app, !length_app.
  cbn [length]. lia.
Qed.

(** ** The stack of Scenes *)

(** X13.  [push(a)] makes [a] the active Scene and [pop()] undoes it: the two in
    a row leave the world exactly as it was, and neither makes a call. *)
Theorem Kernel_push_pop (a : Scene) (w : World) :
  active (world_after (Kernel_push a) w) = Some a
  /\ scenes (kernel (world_after (Kernel_push a) w)) = scenes (kernel w) ++ [a]
  /\ world_after (Kernel_push a;; Kernel_pop) w = w
  /\ calls_of (Kernel_push a;; Kernel_pop) w = [].
Proof.
  split; [|split; [done|split; [|done]]].
  - unfold active, world_after. simpl. apply last_snoc.
  - destruct w as [h [c s i k stack] g].
    unfold world_after. simpl. unfold on_kernel, set_scenes. simpl.
    by rewrite removelast_last.
Qed.

(** X14.  On an empty stack [pop()] fails in no way and does nothing, no Scene
    is active, and [swap(c)] is [push(c)]: it leaves [c] alone on the
    stack. *)
Theorem Kernel_pop_empty (c : Scene) (w : World) :
  scenes (kernel w) = [] ->
  world_after Kernel_pop w = w
  /\ active w = None
  /\ world_after (Kernel_swap c) w = world_after (Kernel_push c) w
  /\ scenes (kernel (world_after (Kernel_swap c) w)) = [c]
  /\ active (world_after (Kernel_swap c) w) = Some c.
Proof.
  destruct w as [h [cv s i k stack] g]. simpl. intros ->.
  by repeat split.
Qed.

(** X15.  [exec] pushes the Scene, focuses the canvas and starts the scheduler.
    Called twice, it leaves both Scenes on the stack with the second one
    active, and the scheduler running on a single chain of frame requests:
    the second call requests no frame.  It writes nothing but the stack and
    the scheduler's [executing]. *)
Theorem Kernel_exec_twice (a b : Scene) (w : World) :
  let w1 := world_after (Kernel_exec a) w in
  let w2 := world_after (Kernel_exec a;; Kernel_exec b) w in
  (scenes (kernel w1) = scenes (kernel w) ++ [a] /\ active w1 = Some a
   /\ calls_of (Kernel_exec a) w
      = Call_focus
        :: (if executing (scheduler (kernel w)) then []
            else [Call_scheduler Call_requestAnimationFrame]))
  /\ (scenes (kernel w2) = scenes (kernel w) ++ [a; b] /\ active w2 = Some b)
  /\ calls_of (Kernel_exec b) w1 = [Call_focus]
  /\ (executing (scheduler (kernel w2)) = true
      /\ lastTick (scheduler (kernel w2)) = lastTick (scheduler (kernel w))
      /\ targetFPS (scheduler (kernel w2)) = targetFPS (scheduler (kernel w)))
  /\ (heap w2 = heap w /\ game w2 = game w
      /\ canvas (kernel w2) = canvas (kernel w)
      /\ keyboardDevice (kernel w2) = keyboardDevice (kernel w)
      /\ input (kernel w2) = input (kernel w)).
Proof.
  intros w1 w2. unfold w1, w2.
  destruct w as [h [cv [fps last running] i k stack] g].
  unfold active, world_after, calls_of. simpl.
  destruct running; simpl; rewrite <- ?app_assoc, ?last_snoc; simpl;
    repeat split; try done.
  all: change [a; b] with ([a] ++ [b]); by rewrite app_assoc, last_snoc.
Qed.

(** ** Frames *)

(** X16.  A frame notification reaches the Kernel through its scheduler, and the
    scheduler decides as [KernelScheduler.tick] does.  When that calls no
    callback, because the scheduler is stopped or the notification comes
    too early, no [Kernel.tick] runs: the world stays exactly as it was,
    and no Keyboard, Scene or canvas is called.  When it calls the callback
    with [dt], exactly one [Kernel.tick(dt)] runs, then [lastTick] becomes
    the time of the notification, then the next frame is requested. *)
Theorem Kernel_frame_runs (timeMS : number) (w : World) :
  let s := scheduler (kernel w) in
  let calls := snd (KernelScheduler_tick timeMS s) in
  match callbacks calls with
  | [] =>
      world_after (Kernel_frame timeMS) w = w
      /\ calls_of (Kernel_frame timeMS) w = Call_scheduler <$> calls
  | dt :: more =>
      more = [] /\ dt = (timeMS / 1000 - lastTick s)%float
      /\ calls_of (Kernel_frame timeMS) w
         = calls_of (Kernel_tick dt) w
             ++ [Call_scheduler Call_requestAnimationFrame]
      /\ world_after (Kernel_frame timeMS) w
         = on_kernel (fun k => set_scheduler
                        (set_lastTick (timeMS / 1000)%float (scheduler k)) k)
                     (world_after (Kernel_tick dt) w)
  end.
Proof.
  intros s calls. unfold calls, KernelScheduler_tick, Kernel_frame.
  unfold world_after, calls_of, mbind, M_bind, gets. cbn [fst snd]. fold s.
  destruct (executing s); [|by cbn].
  destruct (1 / targetFPS s <? timeMS / 1000 - lastTick s)%float; cbn.
  - destruct (Kernel_tick (timeMS / 1000 - lastTick s)%float w) as [[[] w'] calls'].
    cbn. by rewrite app_nil_r.
  - done.
Qed.

(** ** What the Keyboard keeps, and what it misses *)

Lemma keyboards_perform (a : Action) (h : Heap) :
  keyboards h <= keyboards (perform a h).
Proof.
  destruct a as [e|dt b|dt kb| |kb key|kb key|l r|l r|inner]; cbn [perform];
    try (simpl; lia).
  - by destruct (deliver_rest e h) as (_ & _ & _ & -> & _).
  - destruct b; simpl; lia.
  - unfold Keyboard_update.
    by destruct (forEach_Key_update_rest dt (keys h kb) h) as (_ & -> & _).
Qed.

(** X17.  A Keyboard never forgets a Key: whatever is done afterwards, the Keys
    it holds stay in [keys], in their order, with any new ones after them.
    So every Key it ever returned is updated on every tick from then on. *)
Theorem Keyboard_keys_grow (acts : list Action) (keyboard : loc) (h : Heap) :
  keyboard < keyboards h ->
  (keys h keyboard `prefix_of` keys (run acts h) keyboard)
  /\ (forall k : Key, k ∈ keys h keyboard -> k ∈ keys (run acts h) keyboard)
  /\ keyboard < keyboards (run acts h).
Proof.
  revert h. induction acts as [|a acts IH]; intros h Hkb; [done|].
  change (run (a :: acts) h) with (run acts (perform a h)).
  pose proof (keyboards_perform a h) as Hmono.
  destruct (IH (perform a h)) as (Hprefix & Hin & Hkb'); [lia|].
  assert (Hstep : keys h keyboard `prefix_of` keys (perform a h) keyboard).
  { destruct (keys_perform a h keyboard)
      as [->|[[-> _]|(key & k' & _ & _ & ->)]]; [done| |by apply prefix_app_r].
    simpl. rewrite fn_lookup_insert_ne by lia. done. }
  split; [by etrans|]. split; [|done].
  intros k Hk. apply Hin. destruct Hstep as [more ->].
  apply elem_of_app. by left.
Qed.

(** X18.  A Key made by its constructor, and not by [Keyboard.key], is not in
    [Keyboard.keys]: the Keyboard's update passes it by, and it stays up
    whatever the raw map holds, until its own [update] is called, which
    samples the raw map as for any Key. *)
Theorem new_Key_unregistered (keyboard : loc) (key : string) (h : Heap) :
  reachable h ->
  let k := fst (new_Key keyboard key h) in
  let h' := snd (new_Key keyboard key h) in
  (Key_self k ∉ Key_self <$> keys h' keyboard)
  /\ (forall (dt : number) (evs : list RawEvent),
        isDown (Keyboard_update dt keyboard (delivered evs h')) (OfKey k) = false)
  /\ (forall (dt : number) (evs : list RawEvent),
        isDown (update dt (OfKey k) (delivered evs h')) (OfKey k)
        = sample (states (delivered evs h') keyboard) key).
Proof.
  intros Hreach k h'.
  assert (Hout : Key_self k ∉ Key_self <$> keys h' keyboard).
  { intros Hin. apply list_elem_of_fmap in Hin as (k' & Hself & Hk').
    destruct (reachable_keys_wf h Hreach keyboard) as [_ Hkeys].
    destruct (Hkeys k' Hk') as [_ Hlive]. apply lookup_lt_Some in Hlive.
    simpl in Hself, Hlive. lia. }
  split; [done|]. split.
  - intros dt evs. cbn [isDown]. unfold Keyboard_update.
    destruct (delivered_rest evs h') as (_ & _ & Hst & Hkeys).
    destruct (forEach_Key_update_frame dt (keys (delivered evs h') keyboard)
                (delivered evs h') (Key_self k)) as [_ ->].
    + by rewrite Hkeys.
    + rewrite Hst. apply fn_lookup_insert.
  - intros dt evs. cbn [update isDown]. by rewrite Key_update_state_eq.
Qed.

(** ** What a Scene sees *)

(** X19.  [tick] polls before it calls: in a world whose heap a program can
    produce, the Scene's [update] runs in a heap where every Key of the
    Kernel's Keyboard already reports the raw map as it is when the tick
    starts, with its edge against what it reported before.  With no Scene
    on the stack the Keys are brought up to date all the same, and the
    Scenes' own state is untouched. *)
Theorem Kernel_tick_polls_first (dt : number) (w : World) (k : Key) :
  reachable (heap w) ->
  k ∈ keys (heap w) (keyboardDevice (kernel w)) ->
  let keyboard := keyboardDevice (kernel w) in
  let w1 := on_heap (Keyboard_update dt keyboard) w in
  let held := sample (states (heap w) keyboard) (Key_key k) in
  (isDown (heap w1) (OfKey k) = held
   /\ pressed (heap w1) (OfKey k) = held && negb (isDown (heap w) (OfKey k))
   /\ release (heap w1) (OfKey k) = negb held && isDown (heap w) (OfKey k))
  /\ match last (scenes (kernel w)) with
     | Some scene =>
         world_after (Kernel_tick dt) w
         = Scene_render scene dt (clear_canvas (Scene_update scene dt w1))
     | None =>
         heap (world_after (Kernel_tick dt) w) = heap w1
         /\ game (world_after (Kernel_tick dt) w) = game w
     end.
Proof.
  intros Hreach Hk keyboard w1 held. split.
  - destruct (Keyboard_update_registered dt keyboard (heap w) k Hreach Hk)
      as [Hst Hwas].
    unfold pressed, release. cbn [isDown Button_self heap w1 on_heap].
    by rewrite Hst, Hwas.
  - unfold world_after. rewrite Kernel_tick_run. cbv zeta.
    fold keyboard. fold w1. by destruct (last (scenes (kernel w))).
Qed.

End Scratch.


Arguments heap {Scene Game Canvas} _.
Arguments kernel {Scene Game Canvas} _.
Arguments game {Scene Game Canvas} _.
Arguments scenes {Scene Canvas} _.
Arguments Build_World {Scene Game Canvas} _ _ _.
Arguments new_Kernel {Scene Canvas} _ _.
Arguments Kernel_push {Scene Game Canvas} _ _.
Arguments Kernel_pop {Scene Game Canvas} _.
Arguments Kernel_swap {Scene Game Canvas} _ _.
Arguments world_after {Scene Game Canvas A} _ _.
Arguments calls_of {Scene Game Canvas A} _ _.
Arguments active {Scene Game Canvas} _.

(** * Examples *)

(** The Enter key of the first Keyboard, as the demo Scene binds it, in the
    heap where the two have just been constructed. *)
Definition enter : Button :=
  OfKey {| Key_self := 0; Key_keyboard := 0; Key_key := "Enter" |}.

Definition enter_heap : Heap := run [NewKeyboard; GetKey 0 "Enter"] empty_heap.

Definition frame : number := 0.02%float.

(** Up, update, down, update: pressed.  The same state at the next update:
    not pressed any more.  Up, update: released.  A key event between two
    updates changes no answer. *)
Example Enter_edges :
  let tick := UpdateKeyboard frame 0 in
  let h1 := run [tick; Raw (KeyDown 0 "Enter"); tick] enter_heap in
  let h2 := run [tick] h1 in
  let h3 := run [Raw (KeyUp 0 "Enter"); tick] h2 in
  pressed h1 enter = true
  /\ pressed h2 enter = false /\ isDown h2 enter = true
  /\ release h3 enter = true
  /\ isDown (run [Raw (KeyUp 0 "Enter")] h2) enter = true.
Proof. by vm_compute. Qed.

(** Two Keys held down and an AndButton over them. *)
Definition key_a : Button :=
  OfKey {| Key_self := 0; Key_keyboard := 0; Key_key := "a" |}.

Definition key_b : Button :=
  OfKey {| Key_self := 1; Key_keyboard := 0; Key_key := "b" |}.

Definition both : Button := AndButton 2 key_a key_b.

Definition both_heap : Heap := run [NewAnd key_a key_b] (two_keys true true).

(** The Keyboard's updates alone leave the AndButton pressed tick after
    tick; its own update, once per tick, is what ends the edge. *)
Example composite_needs_its_own_update :
  let tick := UpdateKeyboard frame 0 in
  live both_heap both
  /\ pressed both_heap both = true
  /\ pressed (run [tick] both_heap) both = true
  /\ pressed (run [tick; tick] both_heap) both = true
  /\ pressed (run [tick] both_heap) key_a = false
  /\ pressed (run [Update frame both; tick] both_heap) both = false.
Proof. by vm_compute. Qed.

(** C1 at the Enter key: held while [update] runs, released afterwards,
    while a NotButton over it is built and updated. *)
Lemma edge_detection_witness :
  live (deliver (KeyDown 0 "Enter") enter_heap) enter
  /\ quiet enter
       [Raw (KeyUp 0 "Enter"); NewNot enter; Update frame (NotButton 1 enter)]
       (update frame enter (deliver (KeyDown 0 "Enter") enter_heap)) = true
  /\ pressed
       (run [Raw (KeyUp 0 "Enter"); NewNot enter;
             Update frame (NotButton 1 enter)]
            (update frame enter (deliver (KeyDown 0 "Enter") enter_heap)))
       enter = true.
Proof.
  split; [reflexivity|]. split; [reflexivity|].
  apply (edge_detection frame enter
           (deliver (KeyDown 0 "Enter") enter_heap)
           [Raw (KeyUp 0 "Enter"); NewNot enter;
            Update frame (NotButton 1 enter)]);
    [reflexivity|reflexivity|].
  split; reflexivity.
Defined.

(** C8 at the Enter key of a Keyboard that has seen no event. *)
Lemma absent_key_is_up_witness :
  states enter_heap 0 !! "Enter" = None
  /\ isDown (update frame enter enter_heap) enter = false.
Proof.
  split; [reflexivity|].
  apply (absent_key_is_up frame
           {| Key_self := 0; Key_keyboard := 0; Key_key := "Enter" |}
           enter_heap).
  reflexivity.
Defined.

(** C5 at that AndButton. *)
Lemma Keyboard_update_no_cascade_witness :
  reachable both_heap
  /\ live both_heap both
  /\ is_composite both = true
  /\ wasDown (Keyboard_update frame 0 both_heap) (Button_self both)
     = wasDown both_heap (Button_self both).
Proof.
  assert (Hreach : reachable both_heap).
  { apply reachable_run, reachable_run, reachable_empty. }
  split; [exact Hreach|]. split; [reflexivity|]. split; [reflexivity|].
  apply (Keyboard_update_no_cascade frame 0 both_heap both Hreach);
    reflexivity.
Defined.

(** A scheduler at 60 frames per second that has been started. *)
Definition started : KernelScheduler :=
  fst (KernelScheduler_start (new_KernelScheduler 60%float)).

(** C3 at a notification after 20 ms, and at one after 5 ms, which is
    skipped, followed by one after 20 ms. *)
Lemma scheduler_rate_cap_witness :
  executing started = true
  /\ KernelScheduler_tick 20%float started
     = ({| targetFPS := 60%float; lastTick := 0.02%float; executing := true |},
        [Call_callback 0.02%float; Call_requestAnimationFrame])
  /\ callbacks (snd (KernelScheduler_ticks [5%float; 20%float] started))
     = [0.02%float].
Proof.
  split; [reflexivity|]. split.
  - exact (proj1 (scheduler_rate_cap 20%float started eq_refl)).
  - exact (proj1 (proj2 (scheduler_rate_cap 5%float started eq_refl))
             20%float eq_refl eq_refl).
Defined.

(** A Kernel on a canvas without content, its Scenes numbered, with two of
    them on the stack. *)
Definition two_scenes : World nat unit unit :=
  world_after (Kernel_push 1;; Kernel_push 2)
    (let '(k, h) := new_Kernel tt empty_heap in Build_World h k tt).

(** C6 on that stack. *)
Lemma Kernel_swap_atomic_witness :
  scenes (kernel two_scenes) = [] ++ [1; 2]
  /\ scenes (kernel (world_after (Kernel_swap 3) two_scenes)) = [] ++ [1; 3]
  /\ active (world_after (Kernel_swap 3) two_scenes) = Some 3
  /\ calls_of (Kernel_swap 3) two_scenes = [].
Proof.
  split; [reflexivity|].
  destruct (Kernel_swap_atomic nat unit unit
              (fun _ _ w => w) (fun _ _ w => w)
              (fun _ => 0%float) (fun _ => 0%float) (fun _ _ _ _ c => c)
              1 2 3 [] two_scenes eq_refl)
    as (_ & Hstack & Hactive & _ & Hcalls & _).
  exact (conj Hstack (conj Hactive Hcalls)).
Defined.

Arguments keyboardDevice {Scene Canvas} _.
Arguments scheduler {Scene Canvas} _.
Arguments Build_Kernel {Scene Canvas} _ _ _ _ _.
Arguments Kernel_tick {Scene Game Canvas} _ _ _ _ _ _ _.
Arguments on_heap {Scene Game Canvas} _ _.

(** * More examples *)

Definition enter_key : Key :=
  {| Key_self := 0; Key_keyboard := 0; Key_key := "Enter" |}.

(** The heap of the Enter key while Enter is held. *)
Definition enter_held : Heap := deliver (KeyDown 0 "Enter") enter_heap.

Lemma reachable_enter_heap : reachable enter_heap.
Proof. apply reachable_run, reachable_empty. Defined.

Lemma reachable_enter_held : reachable enter_held.
Proof. apply (reachable_perform _ (Raw (KeyDown 0 "Enter"))), reachable_enter_heap. Defined.

Lemma enter_key_registered : enter_key ∈ keys enter_held 0.
Proof. change (enter_key ∈ [enter_key]). apply list_elem_of_here. Defined.

(** The Keyboard's update while Enter is held: the Enter key is pressed. *)
Lemma Keyboard_update_sync_witness :
  reachable enter_held
  /\ enter_key ∈ keys enter_held 0
  /\ isDown (Keyboard_update frame 0 enter_held) enter = true
  /\ pressed (Keyboard_update frame 0 enter_held) enter = true.
Proof.
  split; [exact reachable_enter_held|]. split; [exact enter_key_registered|].
  destruct (Keyboard_update_sync frame 0 enter_held enter_key
              reachable_enter_held enter_key_registered)
    as (Hdown & Hpressed & _).
  split; [exact Hdown|exact Hpressed].
Defined.

(** Enter tapped between two updates: the Key never shows it. *)
Lemma edges_between_updates_witness :
  reachable enter_heap
  /\ enter_key ∈ keys enter_heap 0
  /\ pressed (Keyboard_update frame 0
                (delivered [KeyDown 0 "Enter"; KeyUp 0 "Enter"]
                   (Keyboard_update frame 0 enter_heap))) enter = false
  /\ isDown (Keyboard_update frame 0
               (delivered [KeyDown 0 "Enter"; KeyUp 0 "Enter"]
                  (Keyboard_update frame 0 enter_heap))) enter = false.
Proof.
  assert (Hk : enter_key ∈ keys enter_heap 0).
  { change (enter_key ∈ [enter_key]). apply list_elem_of_here. }
  split; [exact reachable_enter_heap|]. split; [exact Hk|].
  destruct (edges_between_updates frame frame 0 enter_heap enter_key
              [KeyDown 0 "Enter"; KeyUp 0 "Enter"] reachable_enter_heap Hk)
    as (_ & _ & Hsame).
  destruct (Hsame eq_refl) as (Hpressed & _ & Hdown).
  split; [exact Hpressed|]. exact (eq_trans Hdown eq_refl).
Defined.

(** Two Keys for Enter from one Keyboard. *)
Lemma Keyboard_key_twice_witness :
  reachable (run [NewKeyboard] empty_heap)
  /\ Button_self (fst (Keyboard_key 0 "Enter" (run [NewKeyboard] empty_heap)))
     ≠ Button_self
         (fst (Keyboard_key 0 "Enter"
                 (snd (Keyboard_key 0 "Enter" (run [NewKeyboard] empty_heap))))).
Proof.
  assert (Hreach : reachable (run [NewKeyboard] empty_heap)).
  { apply reachable_run, reachable_empty. }
  split; [exact Hreach|].
  exact (proj1 (Keyboard_key_twice 0 "Enter" _ Hreach)).
Defined.

(** The started scheduler over the notifications of the rate-cap example. *)
Lemma KernelScheduler_keeps_running_witness :
  executing started = true
  /\ executing (fst (KernelScheduler_ticks [0; 5; 20]%float started)) = true
  /\ requests (snd (KernelScheduler_ticks [0; 5; 20]%float started)) = 3.
Proof.
  split; [reflexivity|].
  destruct (KernelScheduler_keeps_running [0; 5; 20]%float started eq_refl)
    as (Hexec & _ & Hreq & _).
  split; [exact Hexec|exact Hreq].
Defined.

(** The world of a Kernel that has just been constructed, and that world
    with one Key for Enter, held down. *)
Definition new_world : World nat unit unit :=
  let '(k, h) := new_Kernel tt empty_heap in Build_World h k tt.

Definition enter_world : World nat unit unit :=
  Build_World enter_held (kernel new_world) tt.

Lemma Kernel_pop_empty_witness :
  scenes (kernel new_world) = []
  /\ world_after Kernel_pop new_world = new_world
  /\ scenes (kernel (world_after (Kernel_swap 7) new_world)) = [7].
Proof.
  split; [reflexivity|].
  destruct (Kernel_pop_empty nat unit unit 7 new_world eq_refl)
    as (Hpop & _ & _ & Hswap & _).
  split; [exact Hpop|exact Hswap].
Defined.

Lemma Kernel_tick_polls_first_witness :
  reachable (heap enter_world)
  /\ enter_key ∈ keys (heap enter_world) (keyboardDevice (kernel enter_world))
  /\ pressed (heap (on_heap (Keyboard_update frame 0) enter_world)) enter = true.
Proof.
  split; [exact reachable_enter_held|]. split; [exact enter_key_registered|].
  destruct (Kernel_tick_polls_first nat unit unit
              (fun _ _ w => w) (fun _ _ w => w)
              (fun _ => 0%float) (fun _ => 0%float) (fun _ _ _ _ c => c)
              frame enter_world enter_key
              reachable_enter_held enter_key_registered)
    as ((_ & Hpressed & _) & _).
  exact Hpressed.
Defined.

(** The Enter key stays registered while another Key and another Keyboard
    are made. *)
Lemma Keyboard_keys_grow_witness :
  0 < keyboards enter_heap
  /\ enter_key ∈ keys (run [GetKey 0 "a"; NewKeyboard] enter_heap) 0.
Proof.
  assert (Hkb : 0 < keyboards enter_heap) by (vm_compute; lia).
  split; [exact Hkb|].
  destruct (Keyboard_keys_grow [GetKey 0 "a"; NewKeyboard] 0 enter_heap Hkb)
    as (_ & Hin & _).
  apply Hin. change (enter_key ∈ [enter_key]). apply list_elem_of_here.
Defined.

(** A Key for Enter made by the constructor, while Enter is held. *)
Lemma new_Key_unregistered_witness :
  reachable enter_held
  /\ isDown (Keyboard_update frame 0 (snd (new_Key 0 "Enter" enter_held)))
       (OfKey (fst (new_Key 0 "Enter" enter_held))) = false
  /\ isDown (update frame (OfKey (fst (new_Key 0 "Enter" enter_held)))
               (snd (new_Key 0 "Enter" enter_held)))
       (OfKey (fst (new_Key 0 "Enter" enter_held))) = true.
Proof.
  split; [exact reachable_enter_held|].
  destruct (new_Key_unregistered 0 "Enter" enter_held reachable_enter_held)
    as (_ & Hpassed & Hown).
  split; [exact (Hpassed frame [])|].
  exact (eq_trans (Hown frame []) eq_refl).
Defined.

(** The AndButton over two held Keys does not read a Key made later: that
    Key's update leaves it down. *)
Lemma isDown_reads_leaves_witness :
  (Button_self (OfKey (fst (new_Key 0 "c" both_heap)))
     ∉ Key_self <$> leaves both)
  /\ isDown (update frame (OfKey (fst (new_Key 0 "c" both_heap)))
               (snd (new_Key 0 "c" both_heap))) both = true.
Proof.
  assert (Hout : Button_self (OfKey (fst (new_Key 0 "c" both_heap)))
                   ∉ Key_self <$> leaves both).
  { change (3 ∉ [0; 1]). intros Hin.
    apply elem_of_cons in Hin as [Hin|Hin]; [discriminate|].
    apply elem_of_cons in Hin as [Hin|Hin]; [discriminate|].
    by apply elem_of_nil in Hin. }
  split; [exact Hout|].
  exact (eq_trans
           (proj2 (isDown_reads_leaves (snd (new_Key 0 "c" both_heap)) both)
              frame _ Hout)
           eq_refl).
Defined.


(** A frame before [exec]: the new Kernel's scheduler is not running, so
    nothing happens.  After [exec], the first frame runs one tick, measured
    from 0. *)
Example frames_of_a_new_Kernel :
  let idle := fun (_ : nat) (_ : number) (w : World nat unit unit) => w in
  let size := fun _ : unit => 0%float in
  let clear := fun (_ _ _ _ : number) (c : unit) => c in
  let frame20 := Kernel_frame nat unit unit idle idle size size clear 20%float in
  frame20 new_world = (tt, new_world, [])
  /\ calls_of (Kernel_exec nat unit unit 1) new_world
     = [Call_focus nat; Call_scheduler nat Call_requestAnimationFrame]
  /\ calls_of frame20 (world_after (Kernel_exec nat unit unit 1) new_world)
     = [Call_Keyboard_update nat 0 0.02%float;
        Call_Scene_update nat 1 0.02%float;
        Call_clearRect nat 0%float 0%float 0%float 0%float;
        Call_Scene_render nat 1 0.02%float;
        Call_scheduler nat Call_requestAnimationFrame].
Proof. by vm_compute. Qed.
